(** * ghost-onboarder: import graph, importance scorer and layout helpers

    A shallow embedding of the structural core of the ghost-onboarder CLI:
    - [cli/scanner.py]: [_resolve_js_like], [_resolve_py_like],
      [_extract_imports_for_file], [build_dependency_graph];
    - [cli/score_repo_files.py]: [iter_source_files], [build_import_graph],
      [detect_entrypoint], [runtime_signal], [churn_weight], [score_files];
    - [cli/generate_graph_position.py]: the graph construction of [main]
      and [de_overlap].

    Lexical layer.  The source recognises imports and content cues with
    regular expressions ([PY_IMPORT_RE], [JS_IMPORT_RE], [JS_REQUIRE_RE],
    [RE_JS_IMPORTS], [RE_PY_IMPORTS] and the [re.search] cues).  The
    embedding does not re-implement the regex engine: a file's text is
    represented by what those expressions find in it, in order (record
    [Text]).  Everything downstream of the matches is translated. *)

From Stdlib Require Import String Ascii List ZArith Bool Lia.
From Stdlib Require Import Reals Lra Floats.
From Stdlib Require Import Sorting.Permutation Sorting.Sorted Psatz.
Import ListNotations.
Open Scope string_scope.
Open Scope Z_scope.

(* ------------------------------------------------------------------ *)
(** ** Python string helpers *)

Module Py.

Definition lower_char (c : ascii) : ascii :=
  let n := nat_of_ascii c in
  if (65 <=? n)%nat && (n <=? 90)%nat then ascii_of_nat (n + 32) else c.

Fixpoint lower (s : string) : string :=
  match s with
  | EmptyString => EmptyString
  | String c r => String (lower_char c) (lower r)
  end.

(** [s.startswith(p)] *)
Definition startswith (p s : string) : bool := String.prefix p s.

Fixpoint rev_str (s : string) (acc : string) : string :=
  match s with
  | EmptyString => acc
  | String c r => rev_str r (String c acc)
  end.

(** [s.endswith(p)] *)
Definition endswith (p s : string) : bool :=
  String.prefix (rev_str p EmptyString) (rev_str s EmptyString).

(** [sub in s] *)
Fixpoint contains (sub s : string) : bool :=
  String.prefix sub s ||
  match s with
  | EmptyString => false
  | String _ r => contains sub r
  end.

(** [s.split(c)] for a one-character separator. *)
Fixpoint split_on (c : ascii) (s : string) : list string :=
  match s with
  | EmptyString => [EmptyString]
  | String d r =>
      let parts := split_on c r in
      if Ascii.eqb c d then EmptyString :: parts
      else match parts with
           | p :: ps => String d p :: ps
           | [] => [String d EmptyString]
           end
  end.

(** [s.split(c)[0]] *)
Definition split_head (c : ascii) (s : string) : string :=
  hd EmptyString (split_on c s).

(** [sep.join(parts)] *)
Fixpoint join (sep : string) (parts : list string) : string :=
  match parts with
  | [] => EmptyString
  | [p] => p
  | p :: ps => p ++ sep ++ join sep ps
  end.

Definition is_space (c : ascii) : bool :=
  match nat_of_ascii c with
  | 32 | 9 | 10 | 11 | 12 | 13 => true
  | _ => false
  end%nat.

Fixpoint lstrip (s : string) : string :=
  match s with
  | String c r => if is_space c then lstrip r else s
  | EmptyString => EmptyString
  end.

(** [s.strip()] *)
Definition strip (s : string) : string :=
  rev_str (lstrip (rev_str (lstrip s) EmptyString)) EmptyString.

(** [s.replace(a, b)] for one-character [a] and [b]. *)
Fixpoint replace_char (a b : ascii) (s : string) : string :=
  match s with
  | EmptyString => EmptyString
  | String c r => String (if Ascii.eqb c a then b else c) (replace_char a b r)
  end.

Definition last_str (l : list string) : string := last l EmptyString.

(** [os.path.basename(p)]: the text after the last ["/"]. *)
Definition basename (p : string) : string := last_str (split_on "/" p).

(** Index of the last occurrence of ["."] in [s], as [name.rfind('.')]. *)
Fixpoint rfind_dot_aux (s : string) (i : nat) (acc : option nat) : option nat :=
  match s with
  | EmptyString => acc
  | String c r =>
      rfind_dot_aux r (S i) (if Ascii.eqb c "." then Some i else acc)
  end.

Definition rfind_dot (s : string) : option nat := rfind_dot_aux s 0 None.

(** [PurePath.suffix] of a file name: [name[i:]] when
    [0 < i < len(name) - 1] for [i = name.rfind('.')], else [""]. *)
Definition name_suffix (name : string) : string :=
  match rfind_dot name with
  | Some i =>
      if (0 <? i)%nat && (i <? String.length name - 1)%nat
      then substring i (String.length name - i) name else EmptyString
  | None => EmptyString
  end.

(** [PurePath.stem]: the name without its suffix. *)
Definition name_stem (name : string) : string :=
  match rfind_dot name with
  | Some i =>
      if (0 <? i)%nat && (i <? String.length name - 1)%nat
      then substring 0 i name else name
  | None => name
  end.

Definition mem (x : string) (l : list string) : bool :=
  existsb (String.eqb x) l.

End Py.

(** A path is the list of its components; for an absolute path the list
    starts below ["/"], so [[]] is the file-system root. *)
Definition path := list string.

Definition path_name (p : path) : string := Py.last_str p.
Definition path_suffix (p : path) : string := Py.name_suffix (path_name p).
Definition path_stem (p : path) : string := Py.name_stem (path_name p).

(** [str(rel)] of a relative path, then [.replace("\\", "/")]
    ([as_posix] of the empty relative path is ["."]). *)
Definition rel_str (rel : path) : string :=
  match rel with
  | [] => "."
  | _ => Py.replace_char "\" "/" (Py.join "/" rel)
  end.

(** [rel.as_posix()] *)
Definition as_posix (rel : path) : string :=
  match rel with
  | [] => "."
  | _ => Py.join "/" rel
  end.

(* ------------------------------------------------------------------ *)
(** ** File text as seen by the source's pattern matchers *)

(** Content cues found by the [re.search] calls of [detect_entrypoint]
    and [runtime_signal]. *)
Record Cues := {
  (* Python entry idioms: [__main__] guard, [app.run(],
     ["entry_points"]/["console_scripts"], Flask/FastAPI/Typer/Click/uvicorn *)
  cue_py_entry : bool;
  (* [express|koa|fastify|createServer|app\.listen] *)
  cue_js_entry : bool;
  (* prisma|drizzle|...|kafka|rabbitmq *)
  cue_db : bool;
  (* router|controller|service|middleware|worker|queue|job *)
  cue_role : bool;
  (* [ENV_PATTERN.search(content) and re.search("process\.env|...")] *)
  cue_env : bool
}.

Record Text := {
  (* score_repo_files: for each [PY_IMPORT_RE] match,
     [m.group(1) or m.group(2) or ""] *)
  py_import_groups : list string;
  (* score_repo_files: [m.group(1)] of each [JS_IMPORT_RE] match *)
  js_import_specs : list string;
  (* score_repo_files: [m.group(1)] of each [JS_REQUIRE_RE] match *)
  js_require_specs : list string;
  (* scanner: for each [RE_JS_IMPORTS] match (inside the <script> blocks
     for .vue files), [imp1 or imp2 or ... or imp5], [""] for none *)
  dep_js_specs : list string;
  (* scanner: for each [RE_PY_IMPORTS] match, [from or imp] *)
  dep_py_specs : list string;
  cues : Cues
}.

Definition no_cues : Cues :=
  {| cue_py_entry := false; cue_js_entry := false; cue_db := false;
     cue_role := false; cue_env := false |}.

(** The text of an unreadable file: [read_text_safely] returns [""]. *)
Definition empty_text : Text :=
  {| py_import_groups := []; js_import_specs := []; js_require_specs := [];
     dep_js_specs := []; dep_py_specs := []; cues := no_cues |}.

(* ------------------------------------------------------------------ *)
(** ** [score_repo_files.py] *)

Module Score.

Definition DEFAULT_EXTS : list string := [".py"; ".js"; ".jsx"; ".ts"; ".tsx"].
Definition IGNORE_DIRS : list string :=
  [".git"; "node_modules"; ".venv"; "dist"; "build"; "__pycache__";
   ".mypy_cache"; ".tox"; ".idea"].
Definition MAX_FILE_BYTES : Z := 400000.

Definition ENTRYPOINT_NAMES : list string :=
  ["main"; "app"; "server"; "cli"; "manage"; "index"; "wsgi"; "asgi"].

Definition RUNTIME_PATH_HINTS : list string :=
  ["server/"; "api/"; "routes/"; "router/"; "controllers/"; "controller/";
   "services/"; "service/"; "db/"; "database/"; "models/"; "entities/";
   "auth/"; "workers/"; "jobs/"].

Definition TOOLING_BASENAMES : list string :=
  ["eslint.config.js"; "eslint.config.cjs"; ".eslintrc.js"; ".eslintrc.cjs";
   ".eslintrc.ts"; ".eslintrc.json";
   "tailwind.config.js"; "tailwind.config.cjs"; "postcss.config.js";
   "postcss.config.cjs"; "lint-staged.config.js"; "lint-staged.config.cjs";
   "prettier.config.js"; ".prettierrc"; ".prettierrc.json"; ".prettierrc.js";
   "vitest.config.ts"; "vitest.config.js"; "jest.config.js"; "jest.config.ts";
   "tsconfig.json"].

Definition TYPES_ONLY_SUFFIXES : list string := [".d.ts"].

Definition W_ENTRYPOINT : Z := 4.
Definition W_RUNTIME : Z := 3.
Definition W_IMPORTED_BY : Z := 2.
Definition W_CHURN : Z := 1.
Definition W_TOOLING_PENALTY : Z := -3.
Definition W_TEST_PENALTY : Z := -2.
Definition W_TYPES_PENALTY : Z := -1.
Definition CHURN_CAP : Z := 5.

Definition JS_EXTS : list string := [".js"; ".jsx"; ".ts"; ".tsx"].

(** One entry of [Path(root).rglob("*")]: its path relative to the root,
    what [is_dir]/[is_file] answer, [stat().st_size] and its text. *)
Record Entry := {
  e_rel : path;
  e_is_dir : bool;
  e_is_file : bool;
  e_size : Z;
  e_text : Text
}.

Definition in_ignored_dir (rel : path) : bool :=
  existsb (fun part => Py.mem part IGNORE_DIRS) rel.

(** [iter_source_files]: the [is_dir] branch only skips, it never adds. *)
Definition iter_source_files (entries : list Entry) (exts : list string)
  : list Entry :=
  filter (fun p =>
    e_is_file p && Py.mem (Py.lower (path_suffix (e_rel p))) exts
    && negb (in_ignored_dir (e_rel p))
    && (e_size p <=? MAX_FILE_BYTES)) entries.

(** [read_text_safely(p)] *)
Definition read_text_safely (p : Entry) : Text := e_text p.

Definition detect_entrypoint (p : Entry) (content : Text) : Z :=
  let name := Py.lower (path_stem (e_rel p)) in
  if existsb (fun n => Py.startswith n name || String.eqb name n)
       ENTRYPOINT_NAMES then 1
  else if String.eqb (path_suffix (e_rel p)) ".py"
          && cue_py_entry (cues content) then 1
  else if Py.mem (path_suffix (e_rel p)) JS_EXTS
          && cue_js_entry (cues content) then 1
  else 0.

(** Python dictionaries as association lists in insertion order. *)
Fixpoint dict_get {A} (k : string) (d : list (string * A)) : option A :=
  match d with
  | [] => None
  | (k', v) :: r => if String.eqb k k' then Some v else dict_get k r
  end.

(** [d[k] = v]: overwrite in place, or append a new key at the end. *)
Fixpoint dict_set {A} (k : string) (v : A) (d : list (string * A))
  : list (string * A) :=
  match d with
  | [] => [(k, v)]
  | (k', v') :: r =>
      if String.eqb k k' then (k', v) :: r else (k', v') :: dict_set k v r
  end.

Definition get_or {A} (k : string) (d : list (string * A)) (dflt : A) : A :=
  match dict_get k d with Some v => v | None => dflt end.

(** Set semantics for [imported_keys]: [add] keeps one copy. *)
Definition set_add (x : string) (s : list string) : list string :=
  if Py.mem x s then s else (s ++ [x])%list.

Definition js_key (spec : string) : list string :=
  if Py.startswith "." spec then
    let stem := Py.split_head "." (Py.basename spec) in
    if String.eqb stem "" then [] else [stem]
  else [].

Definition py_keys (group : string) : list string :=
  let modname := Py.strip group in
  if String.eqb modname "" then []
  else flat_map (fun mm =>
         let stem := Py.split_head "." mm in
         if String.eqb stem "" then [] else [stem])
       (map Py.strip (Py.split_on "," modname)).

(** The [imported_keys] set built for one file. *)
Definition imported_keys (p : Entry) : list string :=
  let content := read_text_safely p in
  let found :=
    if String.eqb (path_suffix (e_rel p)) ".py" then
      flat_map py_keys (py_import_groups content)
    else if Py.mem (path_suffix (e_rel p)) JS_EXTS then
      (flat_map js_key (js_import_specs content)
       ++ flat_map js_key (js_require_specs content))%list
    else [] in
  fold_left (fun s k => set_add k s) found [].

Definition file_key_by_relpath (files : list Entry) : list (string * string) :=
  fold_left (fun d p => dict_set (rel_str (e_rel p)) (path_stem (e_rel p)) d)
    files [].

(** [paths_by_key]: key -> set of relative paths. *)
Definition paths_by_key (fk : list (string * string))
  : list (string * list string) :=
  fold_left (fun d '(rel, key) =>
    dict_set key (set_add rel (get_or key d [])) d) fk [].

(** The [Counter] [imported_by] after the loop over [files]. *)
Definition imported_by (files : list Entry) : list (string * Z) :=
  let pk := paths_by_key (file_key_by_relpath files) in
  fold_left (fun c p =>
    fold_left (fun c key =>
      match dict_get key pk with
      | Some _ => dict_set key (get_or key c 0 + 1) c
      | None => c
      end) (imported_keys p) c) files [].

Definition build_import_graph (files : list Entry) : list (string * Z) :=
  let cnt := imported_by files in
  map (fun '(rel, key) => (rel, get_or key cnt 0)) (file_key_by_relpath files).

(** [compute_churn]: the [Counter] over the normalised paths printed by
    [git log --name-only]; [churn.get(rel, 0)] counts occurrences. *)
Definition churn_get (churn : list string) (rel : string) : Z :=
  Z.of_nat (count_occ string_dec churn rel).

Definition is_tooling_config (p : string) : Z :=
  let base := Py.last_str (Py.split_on "/" p) in
  if Py.mem base TOOLING_BASENAMES then 1 else 0.

Definition is_test_or_fixture (p : string) : Z :=
  let lp := Py.lower p in
  if existsb (fun seg => Py.contains seg lp)
       ["/test/"; "/tests/"; "/__tests__"; "/fixtures/"; ".spec."; ".test."]
  then 1 else 0.

Definition is_types_only (p : string) : Z :=
  if existsb (fun s => Py.endswith s p) TYPES_ONLY_SUFFIXES then 1 else 0.

Definition b2z (b : bool) : Z := if b then 1 else 0.

Definition runtime_signal (p : string) (content : Text) : Z :=
  let score :=
    b2z (existsb (fun h => Py.contains h (Py.lower p)) RUNTIME_PATH_HINTS)
    + b2z (cue_db (cues content))
    + b2z (cue_role (cues content))
    + b2z (cue_env (cues content)) in
  Z.min score 2.

Definition churn_weight (raw : Z) : Z := Z.min raw CHURN_CAP.

(** The [meta] dictionary of one scored file (the constant ["weights"]
    entry left out). *)
Record Meta := {
  m_score : Z;
  m_is_entrypoint : Z;
  m_runtime_signal : Z;
  m_imported_by_count : Z;
  m_recent_commits_touching : Z;
  m_tooling_config : Z;
  m_is_test_or_fixture : Z;
  m_is_types_only : Z;
  m_bytes : Z
}.

Definition score_one (imported_by_count : list (string * Z))
  (churn : list string) (p : Entry) : string * Meta :=
  let rel := rel_str (e_rel p) in
  let content := read_text_safely p in
  let is_entry := detect_entrypoint p content in
  let imported_by := get_or rel imported_by_count 0 in
  let recent_touches := churn_get churn rel in
  let tooling := is_tooling_config rel in
  let tests := is_test_or_fixture rel in
  let types := is_types_only rel in
  let runtime := runtime_signal rel content in
  let churn_w := churn_weight recent_touches in
  let score :=
    W_ENTRYPOINT * is_entry + W_RUNTIME * runtime
    + W_IMPORTED_BY * imported_by + W_CHURN * churn_w
    + W_TOOLING_PENALTY * tooling + W_TEST_PENALTY * tests
    + W_TYPES_PENALTY * types in
  (rel, {| m_score := score; m_is_entrypoint := is_entry;
           m_runtime_signal := runtime; m_imported_by_count := imported_by;
           m_recent_commits_touching := recent_touches;
           m_tooling_config := tooling; m_is_test_or_fixture := tests;
           m_is_types_only := types; m_bytes := e_size p |}).

(** The list [scored] after the main loop of [score_files]. *)
Definition score_all (imported_by_count : list (string * Z))
  (churn : list string) (files : list Entry) : list (string * Meta) :=
  map (score_one imported_by_count churn) files.

(** [max(d.items(), key=lambda kv: kv[1])]: the first item of maximal
    value ([max] only replaces its candidate on a strictly greater key). *)
Definition py_max_item (d : list (string * Z)) : option (string * Z) :=
  fold_left (fun best kv =>
    match best with
    | None => Some kv
    | Some b => if snd b <? snd kv then Some kv else Some b
    end) d None.

Definition flag_entry (m : Meta) : Meta :=
  {| m_score := m_score m + W_ENTRYPOINT; m_is_entrypoint := 1;
     m_runtime_signal := m_runtime_signal m;
     m_imported_by_count := m_imported_by_count m;
     m_recent_commits_touching := m_recent_commits_touching m;
     m_tooling_config := m_tooling_config m;
     m_is_test_or_fixture := m_is_test_or_fixture m;
     m_is_types_only := m_is_types_only m; m_bytes := m_bytes m |}.

(** The loop [for i, (rel, meta) in enumerate(scored): if rel == ...: break]. *)
Fixpoint flag_first (r : string) (scored : list (string * Meta))
  : list (string * Meta) :=
  match scored with
  | [] => []
  | (rel, meta) :: rest =>
      if String.eqb rel r then (rel, flag_entry meta) :: rest
      else (rel, meta) :: flag_first r rest
  end.

(** The entrypoint fallback of [score_files]. *)
Definition fallback (imported_by_count : list (string * Z))
  (scored : list (string * Meta)) : list (string * Meta) :=
  if existsb (fun '(_, m) => m_is_entrypoint m =? 1) scored then scored
  else
    let rel_central :=
      match imported_by_count with
      | [] => None
      | _ => option_map fst (py_max_item imported_by_count)
      end in
    match rel_central with
    | Some r => if String.eqb r "" then scored else flag_first r scored
    | None => scored
    end.

(** Sort key [(score, runtime_signal, imported_by_count, -bytes)]. *)
Definition sort_key (m : Meta) : list Z :=
  [m_score m; m_runtime_signal m; m_imported_by_count m; - m_bytes m].

Fixpoint key_le (a b : list Z) : bool :=
  match a, b with
  | x :: a', y :: b' => (x <? y) || ((x =? y) && key_le a' b')
  | _, _ => true
  end.

(** [sort(key=..., reverse=True)] is stable: among equal keys the
    original order is kept.  Insertion after every element whose key is
    not smaller. *)
Fixpoint insert_desc (x : string * Meta) (l : list (string * Meta))
  : list (string * Meta) :=
  match l with
  | [] => [x]
  | y :: t =>
      if key_le (sort_key (snd x)) (sort_key (snd y)) then y :: insert_desc x t
      else x :: y :: t
  end.

Definition sort_desc (l : list (string * Meta)) : list (string * Meta) :=
  fold_left (fun acc x => insert_desc x acc) l [].

(** [scored[:top_n]] with Python's slice semantics. *)
Definition py_take {A} (n : Z) (l : list A) : list A :=
  if 0 <=? n then firstn (Z.to_nat n) l
  else firstn (Z.to_nat (Z.of_nat (length l) + n)) l.

(** [score_files(repo_dir, top_n, ...)]: [entries] is [rglob("*")] of the
    repository, [churn] the output lines of the [git log] call. *)
Definition score_files (entries : list Entry) (churn : list string)
  (top_n : Z) (exts : list string) : list (string * Meta) :=
  let files := iter_source_files entries exts in
  match files with
  | [] => []
  | _ =>
      let imported_by_count := build_import_graph files in
      let scored := score_all imported_by_count churn files in
      py_take top_n (sort_desc (fallback imported_by_count scored))
  end.

End Score.

(* ------------------------------------------------------------------ *)
(** ** [scanner.py]: import resolution and the dependency graph *)

Module Scan.

Local Open Scope list_scope.

(** The file system the resolver probes: normalised absolute paths of
    the existing files and directories.  [Path.resolve()] is taken as the
    lexical normalisation of ["."], [""] and [".."] (no symbolic links). *)
Record FS := {
  fs_files : list path;
  fs_dirs : list path
}.

Fixpoint norm_aux (acc : list string) (segs : list string) : list string :=
  match segs with
  | [] => acc
  | s :: r =>
      if String.eqb s "" || String.eqb s "." then norm_aux acc r
      else if String.eqb s ".." then norm_aux (tl acc) r
      else norm_aux (s :: acc) r
  end.

(** [p.resolve()] of an absolute path ([".."] at the root stays there). *)
Definition resolve (p : path) : path := rev (norm_aux [] p).

Definition path_eqb (p q : path) : bool :=
  if list_eq_dec string_dec p q then true else false.

Definition path_in (p : path) (l : list path) : bool := existsb (path_eqb p) l.

(** [p.exists()] and [p.is_dir()] *)
Definition exists_ (fs : FS) (p : path) : bool :=
  path_in (resolve p) (fs_files fs) || path_in (resolve p) (fs_dirs fs).
Definition is_dir (fs : FS) (p : path) : bool := path_in (resolve p) (fs_dirs fs).

(** [Path(str(p) + s)] for a suffix [s] without ["/"]. *)
Definition append_to_last (p : path) (s : string) : path :=
  match rev p with
  | [] => [s]
  | l :: init => rev init ++ [(l ++ s)%string]
  end.

(** [p.parent] (the parent of ["/"] is ["/"]). *)
Definition parent (p : path) : path := removelast p.

(** [p / spec] for a relative specifier. *)
Definition join_spec (p : path) (spec : string) : path := p ++ Py.split_on "/" spec.

Definition JS_TS_EXTS : list string := [".js"; ".jsx"; ".ts"; ".tsx"; ".mjs"; ".cjs"; ".vue"].
Definition PY_EXTS : list string := [".py"].
Definition JS_TS_INDEX_CANDIDATES : list string :=
  ["index.ts"; "index.tsx"; "index.js"; "index.jsx"; "index.mjs"; "index.cjs"; "index.vue"].
Definition JS_TS_FILE_EXTS_TRY : list string :=
  [".ts"; ".tsx"; ".js"; ".jsx"; ".mjs"; ".cjs"; ".vue"; ".json"].

(** The first candidate that exists: the [for ...: if cand.exists(): return]
    loops. *)
Fixpoint first_existing (fs : FS) (cands : list path) : option path :=
  match cands with
  | [] => None
  | c :: r => if exists_ fs c then Some c else first_existing fs r
  end.

Definition _resolve_js_like (fs : FS) (spec : string) (src_file : path)
  : option path :=
  if negb (Py.startswith "." spec) then None
  else
    let base := resolve (join_spec (parent src_file) spec) in
    if negb (String.eqb (path_suffix base) "") && exists_ fs base then Some base
    else match first_existing fs (map (append_to_last base) JS_TS_FILE_EXTS_TRY) with
         | Some c => Some c
         | None =>
             if exists_ fs base && is_dir fs base then
               first_existing fs (map (fun n => base ++ [n]) JS_TS_INDEX_CANDIDATES)
             else None
         end.

Fixpoint count_leading_dots (s : string) : nat :=
  match s with
  | String c r => if Ascii.eqb c "." then S (count_leading_dots r) else O
  | EmptyString => O
  end.

Definition _resolve_py_like (fs : FS) (module : string) (src_file : path)
  : option path :=
  if negb (Py.startswith "." module) then None
  else
    let dots := count_leading_dots module in
    let remainder := substring dots (String.length module - dots) module in
    let target_dir := Nat.iter dots parent (parent src_file) in
    let target_dir :=
      if String.eqb remainder "" then target_dir
      else target_dir ++ filter (fun s => negb (String.eqb s ""))
                                (Py.split_on "." remainder) in
    first_existing fs [append_to_last target_dir ".py";
                       target_dir ++ ["__init__.py"]].

(** [p.relative_to(root)]: [None] where Python raises [ValueError]. *)
Fixpoint relative_to (p root : path) : option path :=
  match root, p with
  | [], _ => Some p
  | r :: rs, s :: ps => if String.eqb r s then relative_to ps rs else None
  | _ :: _, [] => None
  end.

(** What one specifier contributes: the [continue]s and the [yield]. *)
Definition extract_one (fs : FS) (root : path)
  (resolver : FS -> string -> path -> option path) (fpath : path)
  (spec : string) : list path :=
  if String.eqb spec "" then []
  else match resolver fs spec fpath with
       | None => []
       | Some tgt =>
           match relative_to (resolve tgt) (resolve root) with
           | Some rel => [rel]
           | None => []
           end
       end.

(** [_extract_imports_for_file(fpath, root)] as the list of what it yields. *)
Definition _extract_imports_for_file (fs : FS) (root fpath : path) (text : Text)
  : list path :=
  let suffix := Py.lower (path_suffix fpath) in
  if Py.mem suffix JS_TS_EXTS then
    flat_map (extract_one fs root _resolve_js_like fpath) (dep_js_specs text)
  else if Py.mem suffix PY_EXTS then
    flat_map (extract_one fs root _resolve_py_like fpath) (dep_py_specs text)
  else [].

(** [_read_text_capped(p, max_bytes)] on the bytes of [p]; the UTF-8
    decoding that follows ([errors="ignore"]) is left out. *)
Definition MAX_KEY_FILE_BYTES : nat := Z.to_nat 60000.

Definition _read_text_capped (data : list Byte.byte) (max_bytes : nat)
  : list Byte.byte :=
  if Nat.ltb max_bytes (length data) then firstn max_bytes data else data.

Record Node := { n_id : string; n_label : string }.
Record Edge := { source : string; target : string }.
Record Graph := { nodes : list Node; edges : list Edge }.

(** A file visited by [os.walk(root)] after the directory pruning. *)
Record Walked := { w_rel : path; w_binary : bool; w_text : Text }.

Definition _add_node (node_ids : list Node) (rel : path) : list Node :=
  let rid := as_posix rel in
  if existsb (fun n => String.eqb (n_id n) rid) node_ids then node_ids
  else node_ids ++ [{| n_id := rid; n_label := path_name rel |}].

(** The two loops of [build_dependency_graph], for any import extractor. *)
Definition build_graph_with (extract : Walked -> list path) (src_files : list Walked)
  : Graph :=
  let node_ids := fold_left (fun d f => _add_node d (w_rel f)) src_files [] in
  let '(node_ids, edges) :=
    fold_left (fun '(d, es) f =>
      fold_left (fun '(d, es) tgt_rel =>
        (_add_node d tgt_rel,
         es ++ [{| source := as_posix (w_rel f); target := as_posix tgt_rel |}]))
        (extract f) (d, es)) src_files (node_ids, []) in
  {| nodes := node_ids; edges := edges |}.

Definition src_files (walked : list Walked) : list Walked :=
  filter (fun f => negb (w_binary f)
                   && Py.mem (Py.lower (path_suffix (w_rel f))) (JS_TS_EXTS ++ PY_EXTS))
         walked.

(** [build_dependency_graph(root)]; [root] is already resolved. *)
Definition build_dependency_graph (fs : FS) (root : path) (walked : list Walked)
  : Graph :=
  build_graph_with (fun f => _extract_imports_for_file fs root (root ++ w_rel f) (w_text f))
    (src_files walked).

End Scan.

(* ------------------------------------------------------------------ *)
(** ** [generate_graph_position.py] *)

Module Layout.

Local Open Scope list_scope.

(** JSON objects of the input graph: [n["id"]], [e.get("source")], ... *)
Record NodeJson := { nj_id : option string; nj_label : option string }.
Record EdgeJson := { ej_source : option string; ej_target : option string }.
Record GraphJson := { g_nodes : list NodeJson; g_edges : list EdgeJson }.

(** Outcome of a step that may raise. *)
Inductive result (A : Type) :=
| Ok : A -> result A
| KeyError : result A.
Arguments Ok {A} _.
Arguments KeyError {A}.

(** The undirected [nx.Graph]: nodes in insertion order, edges as pairs. *)
Record NxGraph := { nx_nodes : list string; nx_edges : list (string * string) }.

Definition nx_has_node (g : NxGraph) (s : option string) : bool :=
  match s with
  | Some s => Py.mem s (nx_nodes g)
  | None => false
  end.

Definition add_nodes_from (g : NxGraph) (ids : list string) : NxGraph :=
  fold_left (fun g i =>
    if Py.mem i (nx_nodes g) then g
    else {| nx_nodes := nx_nodes g ++ [i]; nx_edges := nx_edges g |}) ids g.

Definition pair_eqb (a b : string * string) : bool :=
  (String.eqb (fst a) (fst b) && String.eqb (snd a) (snd b))
  || (String.eqb (fst a) (snd b) && String.eqb (snd a) (fst b)).

Definition add_edge (g : NxGraph) (s t : string) : NxGraph :=
  if existsb (pair_eqb (s, t)) (nx_edges g) then g
  else {| nx_nodes := nx_nodes g; nx_edges := nx_edges g ++ [(s, t)] |}.

(** [[n["id"] for n in data.get("nodes", [])]]: [KeyError] on a node
    without an ["id"]. *)
Fixpoint node_ids (ns : list NodeJson) : result (list string) :=
  match ns with
  | [] => Ok []
  | n :: r =>
      match nj_id n, node_ids r with
      | Some i, Ok is => Ok (i :: is)
      | _, _ => KeyError
      end
  end.

(** The graph-building part of [main], and the edge list it writes out
    ([out = {"nodes": ..., "edges": data.get("edges", [])}]).  The
    positions computed in between are floating point and never raise on
    such a graph. *)
Definition main_graph (data : GraphJson) : result (NxGraph * list EdgeJson) :=
  match node_ids (g_nodes data) with
  | KeyError => KeyError
  | Ok ids =>
      let g := add_nodes_from {| nx_nodes := []; nx_edges := [] |} ids in
      let g := fold_left (fun g e =>
                 if nx_has_node g (ej_source e) && nx_has_node g (ej_target e)
                 then match ej_source e, ej_target e with
                      | Some s, Some t => add_edge g s t
                      | _, _ => g
                      end
                 else g) (g_edges data) g in
      Ok (g, g_edges data)
  end.

(** Arithmetic of Python floats, as used by [de_overlap]. *)
Class FloatOps (T : Type) := {
  f_add : T -> T -> T;
  f_sub : T -> T -> T;
  f_mul : T -> T -> T;
  f_div : T -> T -> T;
  (* [math.hypot] *)
  f_hypot : T -> T -> T;
  f_ltb : T -> T -> bool;
  (* truthiness: [x or y] takes [y] exactly when [x == 0.0] *)
  f_is_zero : T -> bool;
  f_half : T;          (* 0.5 *)
  f_tiny : T           (* 1e-6 *)
}.

Section DeOverlap.

Context {T : Type} `{FloatOps T}.

Definition point := (T * T)%type.

Definition get (pos : list point) (k : nat) : point :=
  nth k pos (f_half, f_half).

Fixpoint set (pos : list point) (k : nat) (v : point) : list point :=
  match pos, k with
  | [], _ => []
  | _ :: r, O => v :: r
  | p :: r, S k => p :: set r k v
  end.

(** The body of the inner loop: [xi, yi] are the values read before it. *)
Definition step_pair (min_dist : T) (xi yi : T) (pos : list point) (j i : nat)
  : list point :=
  let '(xj, yj) := get pos j in
  let dx := f_sub xj xi in
  let dy := f_sub yj yi in
  let h := f_hypot dx dy in
  let dist := if f_is_zero h then f_tiny else h in
  if f_ltb dist min_dist then
    let push := f_div (f_mul f_half (f_sub min_dist dist)) dist in
    let ox := f_mul dx push in
    let oy := f_mul dy push in
    let pos := set pos i (f_sub xi ox, f_sub yi oy) in
    set pos j (f_add xj ox, f_add yj oy)
  else pos.

(** [for i in range(n): xi, yi = pos[i]; for j in range(i + 1, n): ...] *)
Definition one_pass (min_dist : T) (n : nat) (pos : list point) : list point :=
  fold_left (fun pos i =>
    let '(xi, yi) := get pos i in
    fold_left (fun pos j => step_pair min_dist xi yi pos j i)
      (seq (S i) (n - S i)) pos) (seq 0 n) pos.

(** [de_overlap(pos, min_dist, passes)]: [pos] is the dictionary's values
    in key order. *)
Definition de_overlap (pos : list point) (min_dist : T) (passes : nat)
  : list point :=
  Nat.iter passes (one_pass min_dist (length pos)) pos.


End DeOverlap.

End Layout.

(** Python's floats are IEEE binary64: the kernel's primitive floats.
    [math.hypot(dx, dy)] is taken as [sqrt(dx*dx + dy*dy)]; both are
    within an ulp of the exact value, and they agree when [dy = 0], on
    zeros and on NaNs.  They part where [dx*dx] or [dy*dy] overflows or
    underflows (magnitudes beyond about [1e154] or below about [1e-154]),
    which the concrete inputs below stay clear of. *)
#[export] Instance float_ops : Layout.FloatOps PrimFloat.float := {
  f_add := PrimFloat.add;
  f_sub := PrimFloat.sub;
  f_mul := PrimFloat.mul;
  f_div := PrimFloat.div;
  f_hypot := fun x y => PrimFloat.sqrt (PrimFloat.add (PrimFloat.mul x x) (PrimFloat.mul y y));
  f_ltb := PrimFloat.ltb;
  f_is_zero := fun x => PrimFloat.eqb x 0%float;
  f_half := 0.5%float;
  f_tiny := 0x1.0c6f7a0b5ed8dp-20%float  (* the double nearest 1e-6 *)
}.

(** The same code over exact real arithmetic. *)
#[export] Instance real_ops : Layout.FloatOps R := {
  f_add := Rplus;
  f_sub := Rminus;
  f_mul := Rmult;
  f_div := Rdiv;
  f_hypot := fun x y => R_sqrt.sqrt (x * x + y * y)%R;
  f_ltb := fun x y => if Rlt_dec x y then true else false;
  f_is_zero := fun x => if Req_EM_T x 0%R then true else false;
  f_half := (/ 2)%R;
  f_tiny := (/ 1000000)%R
}.

(* ------------------------------------------------------------------ *)
(** ** Quantities the properties are stated with *)

Module Spec.

Import Score Scan.
Local Open Scope list_scope.

(** The weighted sum of the components recorded in [meta]. *)
Definition formula_holds (m : Meta) : Prop :=
  m_score m =
    4 * m_is_entrypoint m + 3 * m_runtime_signal m
    + 2 * m_imported_by_count m + Z.min (m_recent_commits_touching m) 5
    - 3 * m_tooling_config m - 2 * m_is_test_or_fixture m
    - m_is_types_only m.

(** The key [score_files] stores a file under. *)
Definition relp (p : Entry) : string := rel_str (e_rel p).

(** Keys of a dictionary in insertion order, without repetition. *)
Definition uniq_aux (acc l : list string) : list string :=
  fold_left (fun acc x => if Py.mem x acc then acc else (acc ++ [x])%list) l acc.

(** Number of files whose import-key set contains [k]. *)
Definition importers (files : list Entry) (k : string) : nat :=
  length (filter (fun q => Py.mem k (imported_keys q)) files).

Definition count_step (pk : list (string * list string)) (c : list (string * Z))
  (key : string) : list (string * Z) :=
  match dict_get key pk with
  | Some _ => dict_set key (get_or key c 0 + 1) c
  | None => c
  end.

(** The edge [build_dependency_graph] appends for target [t] of file [f]. *)
Definition mk_edge (f : Walked) (t : path) : Edge :=
  {| source := as_posix (w_rel f); target := as_posix t |}.

End Spec.

(* ------------------------------------------------------------------ *)
(** ** Concrete inputs *)

Module Fixtures.

Import Score Scan Layout.
Local Open Scope list_scope.

Definition text_of (js_specs py_groups : list string) : Text :=
  {| py_import_groups := py_groups; js_import_specs := js_specs;
     js_require_specs := []; dep_js_specs := js_specs;
     dep_py_specs := []; cues := no_cues |}.

Definition src (rel : path) (t : Text) (size : Z) : Entry :=
  {| e_rel := rel; e_is_dir := false; e_is_file := true; e_size := size;
     e_text := t |}.

(** Three JavaScript files: [a.js] imports [./b], [c.js] stands alone. *)
Definition a_once : Text := text_of ["./b"] [].
Definition trio_entries : list Entry :=
  [src ["a.js"] a_once 30; src ["b.js"] empty_text 10; src ["c.js"] empty_text 10].
Definition trio_files : list Entry := iter_source_files trio_entries DEFAULT_EXTS.

(** The same three files in Python: [a.py] runs [from .b import f] and
    [from . import b], whose captured module names are [.b] and [.]. *)
Definition a_py_rel : Text := text_of [] [".b"; "."].
Definition py_trio_entries : list Entry :=
  [src ["a.py"] a_py_rel 50; src ["b.py"] empty_text 10; src ["c.py"] empty_text 10].
Definition py_trio_files : list Entry := iter_source_files py_trio_entries DEFAULT_EXTS.

(** The same repository where [a.js] has two import statements for [./b]
    (say [import x from "./b"] and [import "./b"]). *)
Definition a_twice : Text := text_of ["./b"; "./b"] [].
Definition twice_entries : list Entry :=
  [src ["a.js"] a_twice 50; src ["b.js"] empty_text 10; src ["c.js"] empty_text 10].
Definition twice_root : path := ["repo"].
Definition twice_fs : FS :=
  {| fs_files := [["repo"; "a.js"]; ["repo"; "b.js"]; ["repo"; "c.js"]];
     fs_dirs := [["repo"]] |}.
Definition twice_walked : list Walked :=
  [{| w_rel := ["a.js"]; w_binary := false; w_text := a_twice |};
   {| w_rel := ["b.js"]; w_binary := false; w_text := empty_text |};
   {| w_rel := ["c.js"]; w_binary := false; w_text := empty_text |}].

(** Files of equal stem [a\x]: one at the top whose name holds a
    backslash, one in [b/]; [a/x.py] gets the same normalised path as the
    first; [m.py] runs [import x]. *)
Definition clash_top : Entry := src ["a\x.py"] empty_text 10.
Definition clash_dir : Entry := src ["a"; "x.py"] empty_text 10.
Definition clash_sub : Entry := src ["b"; "a\x.py"] empty_text 10.
Definition clash_main : Entry := src ["m.py"] (text_of [] ["x"]) 10.
Definition clash_files : list Entry := [clash_top; clash_dir; clash_sub; clash_main].

(** Two files of stem [x] in different directories, and [m.py]. *)
Definition pair_a : Entry := src ["a"; "x.py"] empty_text 10.
Definition pair_b : Entry := src ["b"; "x.py"] empty_text 10.
Definition pair_files : list Entry := [pair_a; pair_b; clash_main].

(** A Python file one byte over [MAX_FILE_BYTES]. *)
Definition big_entry : Entry := src ["big.py"] empty_text 400001.

(** A layout input whose only edge points at an unknown node. *)
Definition dangling : GraphJson :=
  {| g_nodes := [{| nj_id := Some "a"; nj_label := Some "a" |}];
     g_edges := [{| ej_source := Some "a"; ej_target := Some "ghost" |}] |}.

(** Three positions; nodes 0 and 1 start closer than 4.0. *)
Definition trio_pos : list (PrimFloat.float * PrimFloat.float) :=
  [(1.5, 0.0); (-1.0, 3.0); (3.0, -2.0)]%float.


End Fixtures.

(* ------------------------------------------------------------------ *)
(** ** [scanner.py]: repository summary helpers *)

Module ScanRepo.

Local Open Scope list_scope.

(** [_detect_ecosystem(root)].  [ex rel] is [(root / rel).exists()];
    [pkg_deps] are the keys of ["dependencies"] and then
    ["devDependencies"] of [package.json], [None] when reading or parsing
    it raises (every [frameworks.append] comes after those steps). *)
Record Ecosystem := {
  primary : option string;
  secondaries : list string;
  frameworks : list string
}.

Definition _detect_ecosystem (ex : string -> bool) (pkg_deps : option (list string))
  : Ecosystem :=
  let '(primary, frameworks) :=
    if ex "package.json" then
      (Some "node",
       match pkg_deps with
       | None => []
       | Some keys =>
           let names := map Py.lower keys in
           let has n := Py.mem n names in
           (if has "next" || has "nextjs" then ["nextjs"] else [])
           ++ (if has "react" || has "preact" then ["react"] else [])
           ++ (if has "vite" then ["vite"] else [])
           ++ (if has "express" then ["express"] else [])
           ++ (if has "nuxt" then ["nuxt"] else [])
           ++ (if has "vue" then ["vue"] else [])
       end)
    else (None, []) in
  let '(primary, secondaries) :=
    if ex "pyproject.toml" || ex "requirements.txt" || ex "setup.py" then
      match primary with
      | None => (Some "python", [])
      | Some p => (Some p, ["python"])
      end
    else (primary, []) in
  let '(primary, secondaries) :=
    if ex "go.mod" then
      let p := match primary with Some p => p | None => "go" end in
      (Some p, if String.eqb p "go" then secondaries else secondaries ++ ["go"])
    else (primary, secondaries) in
  let '(primary, secondaries) :=
    if ex "Cargo.toml" then
      let p := match primary with Some p => p | None => "rust" end in
      (Some p, if String.eqb p "rust" then secondaries else secondaries ++ ["rust"])
    else (primary, secondaries) in
  let secondaries := if ex "Dockerfile" then secondaries ++ ["docker"] else secondaries in
  {| primary := primary;
     secondaries := Spec.uniq_aux [] secondaries;
     frameworks := Spec.uniq_aux [] frameworks |}.

Definition KEY_PATHS : list string :=
  ["README.md"; "README"; "CONTRIBUTING.md"; "CHANGELOG.md";
   "package.json";
   "requirements.txt"; "pyproject.toml"; "setup.py"; "setup.cfg"; "Pipfile"; "Pipfile.lock";
   "go.mod"; "Cargo.toml"; "Gemfile"; "pom.xml"; "build.gradle"; "settings.gradle";
   "Dockerfile"; "docker-compose.yml";
   "Makefile"; ".tool-versions"; ".nvmrc"; ".python-version";
   ".env.example"; "devcontainer.json";
   ".github/workflows"].

(** A set in the source; the properties below do not depend on its
    iteration order. *)
Definition REDACT_LOCKFILE_NAMES : list string :=
  ["pnpm-lock.yaml"; "yarn.lock"; "package-lock.json"; "npm-shrinkwrap.json"].

(** The repository as [_collect_key_files] sees it: root-relative paths of
    the regular files (in the order [glob] yields them) and directories,
    [_is_binary], and the bytes of each file. *)
Record Repo := {
  r_files : list path;
  r_dirs : list path;
  r_binary : path -> bool;
  r_bytes : path -> list Byte.byte
}.

(** The ["content"] of an entry: the capped text of the file, or the
    placeholder of [_redacted_placeholder] (which shows the file's name,
    size and line count, never its text). *)
Inductive KeyContent :=
| KText (b : list Byte.byte)
| KRedacted (name : string).

Definition path_inb (p : path) (l : list path) : bool := Scan.path_in p l.

(** [root / pat] for a pattern of [KEY_PATHS] ([Path] drops empty parts). *)
Definition pat_path (pat : string) : path :=
  filter (fun s => negb (String.eqb s "")) (Py.split_on "/" pat).

(** [f] lies strictly below [d]: one of the paths [d.glob("**/*")] yields. *)
Definition strictly_under (d f : path) : bool :=
  match Scan.relative_to f d with
  | Some (_ :: _) => true
  | _ => false
  end.

Definition read_capped (rp : Repo) (f : path) : KeyContent :=
  KText (Scan._read_text_capped (r_bytes rp f) Scan.MAX_KEY_FILE_BYTES).

Definition key_value (rp : Repo) (f : path) : string * KeyContent :=
  if Py.mem (path_name f) REDACT_LOCKFILE_NAMES
  then (as_posix f, KRedacted (path_name f))
  else (as_posix f, read_capped rp f).

Definition KeyDict := list (string * (string * KeyContent)).

(** The [for f in p.glob("**/*")] loop: [count] files taken so far,
    [break] once it reaches 3. *)
Fixpoint glob_loop (rp : Repo) (fs : list path) (count : nat) (out : KeyDict)
  : KeyDict :=
  match fs with
  | [] => out
  | f :: r =>
      if negb (r_binary rp f) then
        let out := Score.dict_set (as_posix f) (key_value rp f) out in
        if Nat.leb 3 (S count) then out else glob_loop rp r (S count) out
      else glob_loop rp r count out
  end.

Definition key_path_step (rp : Repo) (out : KeyDict) (pat : string) : KeyDict :=
  let p := pat_path pat in
  if Py.endswith "/" pat || path_inb p (r_dirs rp) then
    if path_inb p (r_dirs rp)
    then glob_loop rp (filter (strictly_under p) (r_files rp)) 0 out
    else out
  else if path_inb p (r_files rp) && negb (r_binary rp p)
  then Score.dict_set (as_posix p) (key_value rp p) out
  else out.

(** [out.setdefault(rel, {...})] *)
Definition setdefault {A} (k : string) (v : A) (d : list (string * A))
  : list (string * A) :=
  match Score.dict_get k d with
  | Some _ => d
  | None => Score.dict_set k v d
  end.

Definition _collect_key_files (rp : Repo) : KeyDict :=
  let out := fold_left (key_path_step rp) KEY_PATHS [] in
  fold_left (fun out name =>
    if path_inb [name] (r_files rp)
    then setdefault (as_posix [name]) (as_posix [name], KRedacted name) out
    else out) REDACT_LOCKFILE_NAMES out.

End ScanRepo.

(* ------------------------------------------------------------------ *)
(** ** [generate_graph_position.py]: sizes, boxes and the output nodes,
    over exact real arithmetic *)

Module LayoutMain.

Local Open Scope R_scope.
Local Open Scope list_scope.

(** [min(xs)] / [max(xs)] of a non-empty list. *)
Definition py_min (xs : list R) : R :=
  match xs with [] => 0 | x :: r => fold_left Rmin r x end.
Definition py_max (xs : list R) : R :=
  match xs with [] => 0 | x :: r => fold_left Rmax r x end.

(** [[p[0] for p in d.values()] or [0]] *)
Definition xs_of (d : list (string * (R * R))) : list R :=
  match map (fun kv => fst (snd kv)) d with [] => [0] | l => l end.
Definition ys_of (d : list (string * (R * R))) : list R :=
  match map (fun kv => snd (snd kv)) d with [] => [0] | l => l end.

(** [adaptive_params(n)]: [(k, spread, min_d, iters)]. *)
Definition adaptive_params (n0 : Z) : R * R * R * Z :=
  let n := Z.max 1 n0 in
  let lg := Rmax 0 (ln (IZR n) / ln 10) in
  let k := 1.8 / R_sqrt.sqrt (IZR n) * (1 + 0.15 * lg) in
  let spread := 1.6 + 0.45 * lg in
  let min_d := 80 + 22 * lg in
  let iters := Z.min 800 (220 + 4 * n) in
  (k, spread, min_d, iters).

(** [normalize_box(subpos)] *)
Definition normalize_box (subpos : list (string * (R * R)))
  : list (string * (R * R)) :=
  let xs := xs_of subpos in
  let ys := ys_of subpos in
  let minx := py_min xs in
  let maxx := py_max xs in
  let miny := py_min ys in
  let maxy := py_max ys in
  let w := Rmax (/ 1000000) (maxx - minx) in
  let h := Rmax (/ 1000000) (maxy - miny) in
  fold_left (fun out kv =>
    let '(k, (x, y)) := kv in
    Score.dict_set k ((x - minx) / w - 0.5, (y - miny) / h - 0.5) out) subpos [].

End LayoutMain.

(* ------------------------------------------------------------------ *)
(** ** Further quantities and inputs *)

Module ExtraSpec.

Import Score.

(** [x] may precede [y] in the order of [scored.sort(..., reverse=True)]. *)
Definition ranks_before (x y : string * Meta) : Prop :=
  key_le (sort_key (snd y)) (sort_key (snd x)) = true.

(** Both coordinates of a point lie in [[lo, hi]]. *)
Definition in_box (lo hi : R) (p : R * R) : Prop :=
  (lo <= fst p <= hi /\ lo <= snd p <= hi)%R.

(** The distance [de_overlap] computes for the pair [(i, j)]. *)
Definition pair_dist {T} `{Layout.FloatOps T} (pi pj : Layout.point) : T :=
  let '(xi, yi) := pi in
  let '(xj, yj) := pj in
  let h := Layout.f_hypot (Layout.f_sub xj xi) (Layout.f_sub yj yi) in
  if Layout.f_is_zero h then Layout.f_tiny else h.

(** No pair [i < j] of [de_overlap]'s loops is closer than [m]. *)
Definition no_close_pair {T} `{Layout.FloatOps T} (pos : list (@Layout.point T)) (m : T)
  : bool :=
  forallb (fun i =>
    forallb (fun j =>
      negb (Layout.f_ltb (pair_dist (Layout.get pos i) (Layout.get pos j)) m))
      (seq (S i) (length pos - S i)%nat))
    (seq 0 (length pos)).

(** The suffix tests of [build_import_graph]'s import scan, which compare
    [p.suffix] as it is (no lower-casing). *)
Definition import_suffix_ok (p : Entry) : bool :=
  String.eqb (path_suffix (e_rel p)) ".py" || Py.mem (path_suffix (e_rel p)) JS_EXTS.

(** A module name without ["."]. *)
Definition no_dot (s : string) : bool :=
  forallb (fun c => negb (Ascii.eqb c ".")) (list_ascii_of_string s).

End ExtraSpec.

(* ------------------------------------------------------------------ *)
(** ** Further concrete inputs *)

Module ExtraFixtures.

Local Open Scope list_scope.

(** [r/pkg/mod.py] next to [r/pkg/foo.py]. *)
Definition sibling_fs : Scan.FS :=
  {| Scan.fs_files := [["r"; "pkg"; "mod.py"]; ["r"; "pkg"; "foo.py"]];
     Scan.fs_dirs := [["r"]; ["r"; "pkg"]] |}.

(** [A.PY] imports [b]. *)
Definition upper_entries : list Score.Entry :=
  [Fixtures.src ["A.PY"] (Fixtures.text_of [] ["b"]) 10;
   Fixtures.src ["b.py"] empty_text 10].

Definition js_fs : Scan.FS :=
  {| Scan.fs_files := [["r"; "a.js"]; ["r"; "b.ts"]; ["r"; "b"; "index.ts"]];
     Scan.fs_dirs := [["r"]; ["r"; "b"]] |}.

End ExtraFixtures.

(* ================================================================== *)
(** * Properties *)

Module ScoreFacts.

Import Score Spec.

Ltac meta_simpl :=
  cbv zeta; cbn [snd fst m_score m_is_entrypoint m_runtime_signal
                 m_imported_by_count m_recent_commits_touching m_tooling_config
                 m_is_test_or_fixture m_is_types_only m_bytes flag_entry] in *.

Lemma detect_entrypoint_01 p c :
  detect_entrypoint p c = 0 \/ detect_entrypoint p c = 1.
Proof.
  unfold detect_entrypoint.
  repeat match goal with |- context [if ?b then _ else _] => destruct b end; auto.
Qed.

Lemma runtime_signal_range r c : 0 <= runtime_signal r c <= 2.
Proof.
  unfold runtime_signal, b2z.
  repeat match goal with |- context [if ?b then _ else _] => destruct b end; lia.
Qed.

Lemma score_one_formula d churn p :
  formula_holds (snd (score_one d churn p))
  /\ 0 <= m_runtime_signal (snd (score_one d churn p)) <= 2
  /\ (m_is_entrypoint (snd (score_one d churn p)) = 0
      \/ m_is_entrypoint (snd (score_one d churn p)) = 1).
Proof.
  unfold score_one, formula_holds, churn_weight, CHURN_CAP; meta_simpl.
  split; [unfold W_ENTRYPOINT, W_RUNTIME, W_IMPORTED_BY, W_CHURN,
                 W_TOOLING_PENALTY, W_TEST_PENALTY, W_TYPES_PENALTY; lia|].
  split; [apply runtime_signal_range | apply detect_entrypoint_01].
Qed.

Lemma in_py_take {A} n (l : list A) x : In x (py_take n l) -> In x l.
Proof.
  unfold py_take; destruct (0 <=? n); intro H;
    [rewrite <- (firstn_skipn (Z.to_nat n) l)
    |rewrite <- (firstn_skipn (Z.to_nat (Z.of_nat (length l) + n)) l)];
    apply in_or_app; auto.
Qed.

Lemma in_insert_desc x l y : In y (insert_desc x l) -> y = x \/ In y l.
Proof.
  induction l as [|z l IH]; intro H; cbn [insert_desc] in H.
  - destruct H as [H|[]]; auto.
  - destruct (key_le (sort_key (snd x)) (sort_key (snd z))); simpl in H.
    + destruct H as [H|H]; [simpl; auto|]. destruct (IH H); simpl; auto.
    + destruct H as [H|[H|H]]; simpl; auto.
Qed.

Lemma in_sort_desc l y : In y (sort_desc l) -> In y l.
Proof.
  unfold sort_desc.
  assert (G : forall acc, In y (fold_left (fun acc x => insert_desc x acc) l acc)
                          -> In y acc \/ In y l).
  { induction l as [|x l IH]; simpl; intros acc H; [auto|].
    destruct (IH _ H) as [H1|H1]; auto.
    destruct (in_insert_desc _ _ _ H1); auto. }
  intro H; destruct (G [] H) as [[]|]; auto.
Qed.

Lemma in_flag_first r l y :
  In y (flag_first r l) -> In y l \/ exists z, In z l /\ y = (fst z, flag_entry (snd z)).
Proof.
  induction l as [|[rel m] l IH]; simpl; [auto|].
  destruct (String.eqb rel r); simpl.
  - intros [H|H]; [right; exists (rel, m); auto | auto].
  - intros [H|H]; [auto|]. destruct (IH H) as [H1|[z [Hz ->]]]; eauto.
Qed.

Lemma in_fallback d l y :
  In y (fallback d l) ->
  In y l \/ (existsb (fun '(_, m) => m_is_entrypoint m =? 1) l = false
             /\ exists z, In z l /\ y = (fst z, flag_entry (snd z))).
Proof.
  unfold fallback. destruct (existsb _ l) eqn:E; [auto|].
  destruct (match d with [] => None | _ => _ end) as [r|]; [|auto].
  destruct (String.eqb r ""); [auto|].
  intro H; destruct (in_flag_first _ _ _ H); auto.
Qed.

Lemma existsb_false_entry (l : list (string * Meta)) z :
  existsb (fun '(_, m) => m_is_entrypoint m =? 1) l = false -> In z l ->
  m_is_entrypoint (snd z) <> 1.
Proof.
  intros E Hz Hm. destruct z as [r m]. simpl in Hm.
  assert (T : existsb (fun '(_, m) => m_is_entrypoint m =? 1) l = true).
  { apply existsb_exists. exists (r, m). split; [exact Hz|].
    apply Z.eqb_eq; exact Hm. }
  congruence.
Qed.

End ScoreFacts.

(** ** C9: monotonic scoring *)

(** Claim C9.  For every file, raising its reverse-edge count
    ([imported_by_count]) while the file, its text and the churn log stay
    the same never lowers its score. *)
Theorem score_monotone_in_imported_by (d1 d2 : list (string * Z))
  (churn : list string) (p : Score.Entry) :
  Score.get_or (rel_str (Score.e_rel p)) d1 0
    <= Score.get_or (rel_str (Score.e_rel p)) d2 0 ->
  Score.m_score (snd (Score.score_one d1 churn p))
    <= Score.m_score (snd (Score.score_one d2 churn p)).
Proof.
  intro H. unfold Score.score_one; ScoreFacts.meta_simpl.
  unfold Score.W_IMPORTED_BY. lia.
Qed.

Lemma score_monotone_in_imported_by_witness :
  let p := Fixtures.src ["b.js"] empty_text 10 in
  Score.get_or (rel_str (Score.e_rel p)) [] 0
    <= Score.get_or (rel_str (Score.e_rel p)) [("b.js", 1)] 0
  /\ Score.m_score (snd (Score.score_one [] [] p))
     <= Score.m_score (snd (Score.score_one [("b.js", 1)] [] p)).
Proof.
  intro p.
  assert (H : Score.get_or (rel_str (Score.e_rel p)) [] 0
              <= Score.get_or (rel_str (Score.e_rel p)) [("b.js", 1)] 0)
    by (apply Z.leb_le; vm_compute; reflexivity).
  split; [exact H|].
  exact (score_monotone_in_imported_by [] [("b.js", 1)] [] p H).
Defined.

(** ** C4: the score formula *)

(** Claim C4.  Every record returned by [score_files] has total score
    [4*is_entrypoint + 3*runtime_signal + 2*imported_by_count
     + min(recent_commits_touching, 5) - 3*tooling - 2*test - types_only],
    with [runtime_signal] between 0 and 2; this also holds for the record
    flagged by the entrypoint fallback. *)
Theorem score_files_formula (entries : list Score.Entry) (churn : list string)
  (top_n : Z) (exts : list string) (rel : string) (m : Score.Meta) :
  In (rel, m) (Score.score_files entries churn top_n exts) ->
  Spec.formula_holds m /\ 0 <= Score.m_runtime_signal m <= 2.
Proof.
  unfold Score.score_files.
  destruct (Score.iter_source_files entries exts) as [|f fs] eqn:Ef; [intros []|].
  intro H. apply ScoreFacts.in_py_take, ScoreFacts.in_sort_desc in H.
  apply ScoreFacts.in_fallback in H.
  destruct H as [H|[E [z [Hz Hy]]]].
  - unfold Score.score_all in H. apply in_map_iff in H as [p [Hp _]].
    pose proof (ScoreFacts.score_one_formula
                  (Score.build_import_graph (f :: fs)) churn p) as F.
    rewrite Hp in F. tauto.
  - pose proof (ScoreFacts.existsb_false_entry _ _ E Hz) as Hn.
    unfold Score.score_all in Hz. apply in_map_iff in Hz as [p [Hp _]].
    pose proof (ScoreFacts.score_one_formula
                  (Score.build_import_graph (f :: fs)) churn p) as F.
    rewrite Hp in F. injection Hy as -> ->.
    destruct F as [F1 [F2 F3]].
    unfold Spec.formula_holds in *. ScoreFacts.meta_simpl.
    unfold Score.W_ENTRYPOINT. split; [|exact F2].
    destruct F3 as [F3|F3]; [|contradiction]. rewrite F1, F3. lia.
Qed.

Lemma score_files_formula_witness :
  let mb := {| Score.m_score := 6; Score.m_is_entrypoint := 1;
               Score.m_runtime_signal := 0; Score.m_imported_by_count := 1;
               Score.m_recent_commits_touching := 0; Score.m_tooling_config := 0;
               Score.m_is_test_or_fixture := 0; Score.m_is_types_only := 0;
               Score.m_bytes := 10 |} in
  In ("b.js", mb) (Score.score_files Fixtures.trio_entries [] 10 Score.DEFAULT_EXTS)
  /\ Spec.formula_holds mb /\ 0 <= Score.m_runtime_signal mb <= 2.
Proof.
  intro mb.
  assert (H : In ("b.js", mb)
                 (Score.score_files Fixtures.trio_entries [] 10 Score.DEFAULT_EXTS))
    by (vm_compute; left; reflexivity).
  split; [exact H|].
  exact (score_files_formula Fixtures.trio_entries [] 10 Score.DEFAULT_EXTS "b.js" mb H).
Defined.

Module DictFacts.

Import Score Spec.
Local Open Scope list_scope.

Lemma mem_In x l : Py.mem x l = true <-> In x l.
Proof.
  unfold Py.mem. rewrite existsb_exists. split.
  - intros [y [Hy E]]. apply String.eqb_eq in E. subst; auto.
  - intro H. exists x. split; [auto|apply String.eqb_refl].
Qed.

Lemma uniq_aux_app acc l1 l2 :
  uniq_aux acc (l1 ++ l2) = uniq_aux (uniq_aux acc l1) l2.
Proof. unfold uniq_aux. apply fold_left_app. Qed.

Lemma uniq_aux_In acc l x : In x (uniq_aux acc l) <-> In x acc \/ In x l.
Proof.
  revert acc; induction l as [|y l IH]; intro acc; simpl; [tauto|].
  rewrite IH. destruct (Py.mem y acc) eqn:E.
  - apply mem_In in E. split; [tauto|]. intros [H|[H|H]]; subst; auto.
  - rewrite in_app_iff; simpl. tauto.
Qed.

Lemma uniq_aux_NoDup acc l : NoDup acc -> NoDup (uniq_aux acc l).
Proof.
  revert acc; induction l as [|y l IH]; intros acc H; simpl; [auto|].
  apply IH. destruct (Py.mem y acc) eqn:E; [auto|].
  apply NoDup_app; auto using NoDup_cons, NoDup_nil.
  - intros z Hz [<-|[]]. apply mem_In in Hz. congruence.
Qed.

Lemma keys_dict_set {A} k (v : A) d :
  map fst (dict_set k v d) =
  if Py.mem k (map fst d) then map fst d else (map fst d ++ [k])%list.
Proof.
  induction d as [|[k' v'] d IH]; simpl; [reflexivity|].
  unfold Py.mem in *; simpl.
  destruct (String.eqb k k') eqn:E; simpl; [reflexivity|].
  rewrite IH. destruct (existsb _ _); reflexivity.
Qed.

Lemma keys_file_key_by_relpath files :
  map fst (file_key_by_relpath files)
  = uniq_aux [] (map (fun p => rel_str (e_rel p)) files).
Proof.
  unfold file_key_by_relpath.
  assert (G : forall d, map fst (fold_left (fun d p =>
            dict_set (rel_str (e_rel p)) (path_stem (e_rel p)) d) files d)
          = uniq_aux (map fst d) (map (fun p => rel_str (e_rel p)) files)).
  { induction files as [|p fs IH]; intro d; simpl; [reflexivity|].
    rewrite IH, keys_dict_set. reflexivity. }
  apply G.
Qed.

Lemma dict_get_In_NoDup {A} (d : list (string * A)) k v :
  NoDup (map fst d) -> In (k, v) d -> dict_get k d = Some v.
Proof.
  induction d as [|[k' v'] d IH]; simpl; [intros _ []|].
  intros Hn [E|H]; inversion Hn as [|? ? Hnot Hn']; subst.
  - injection E as -> ->. rewrite String.eqb_refl. reflexivity.
  - destruct (String.eqb k k') eqn:E.
    + apply String.eqb_eq in E; subst. exfalso; apply Hnot.
      apply (in_map fst) in H; exact H.
    + auto.
Qed.

Lemma keys_build_import_graph files :
  map fst (build_import_graph files) = map fst (file_key_by_relpath files).
Proof.
  unfold build_import_graph. rewrite map_map.
  apply map_ext. intros [a b]; reflexivity.
Qed.

Lemma build_import_graph_NoDup files : NoDup (map fst (build_import_graph files)).
Proof.
  rewrite keys_build_import_graph, keys_file_key_by_relpath.
  apply uniq_aux_NoDup, NoDup_nil.
Qed.

(** The value stored under a key is what [get] returns for it. *)
Lemma build_import_graph_get files r v :
  In (r, v) (build_import_graph files) ->
  get_or r (build_import_graph files) 0 = v.
Proof.
  intro H. unfold get_or.
  rewrite (dict_get_In_NoDup _ _ _ (build_import_graph_NoDup files) H).
  reflexivity.
Qed.

Lemma NoDup_app_cons_eq (A : Type) (a1 b1 a2 b2 : list A) (x : A) :
  NoDup (a1 ++ x :: b1) -> a1 ++ x :: b1 = a2 ++ x :: b2 -> a1 = a2.
Proof.
  revert a2; induction a1 as [|y a1 IH]; intros a2 Hn E; destruct a2 as [|z a2];
    simpl in *; auto.
  - injection E; intros E2 E1. inversion Hn as [|? ? Hx _]; subst.
    exfalso. apply Hx. apply in_or_app; simpl; auto.
  - injection E; intros E2 E1. subst. inversion Hn as [|? ? Hx _]; subst.
    exfalso. apply Hx. apply in_or_app; simpl; auto.
  - injection E; intros E2 E1. subst. inversion Hn; subst. f_equal. eauto.
Qed.

End DictFacts.

Module FallbackFacts.

Import Score Spec DictFacts.
Local Open Scope list_scope.

(** [max] returns the first item of maximal value. *)
Lemma py_max_item_spec (d : list (string * Z)) :
  d <> [] ->
  exists pre kv post, d = pre ++ kv :: post /\ py_max_item d = Some kv
    /\ Forall (fun y => snd y < snd kv) pre
    /\ Forall (fun y => snd y <= snd kv) post.
Proof.
  induction d as [|a l IH] using rev_ind; [congruence|]. intros _.
  unfold py_max_item in *. rewrite fold_left_app. simpl.
  destruct l as [|b l'].
  - exists [], a, []. simpl. split; [reflexivity|]. split; [reflexivity|].
    split; constructor.
  - destruct IH as [pre [kv [post [E [M [Hpre Hpost]]]]]]; [congruence|].
    rewrite M. destruct (snd kv <? snd a) eqn:C.
    + apply Z.ltb_lt in C.
      exists (b :: l'), a, []. split; [reflexivity|]. split; [reflexivity|].
      split; [|constructor].
      rewrite E. apply Forall_app; split.
      * eapply Forall_impl; [|exact Hpre]. intros y Hy; simpl in Hy; lia.
      * constructor; [lia|]. eapply Forall_impl; [|exact Hpost].
        intros y Hy; simpl in Hy; lia.
    + apply Z.ltb_ge in C.
      exists pre, kv, (post ++ [a]). split; [|split; [reflexivity|split]].
      * rewrite E. rewrite <- app_assoc. reflexivity.
      * exact Hpre.
      * apply Forall_app; split; [exact Hpost|constructor; [lia|constructor]].
Qed.

Lemma flag_first_split pre r m post :
  ~ In r (map fst pre) ->
  flag_first r (pre ++ (r, m) :: post) = pre ++ (r, flag_entry m) :: post.
Proof.
  induction pre as [|[r' m'] pre IH]; simpl; intro Hn.
  - rewrite String.eqb_refl. reflexivity.
  - destruct (String.eqb r' r) eqn:E.
    + apply String.eqb_eq in E. exfalso; auto.
    + rewrite IH; auto.
Qed.

Lemma uniq_aux_prefix acc l : exists t, uniq_aux acc l = acc ++ t.
Proof.
  revert acc; induction l as [|y l IH]; intro acc; simpl.
  - exists []. rewrite app_nil_r. reflexivity.
  - destruct (Py.mem y acc).
    + apply IH.
    + destruct (IH (acc ++ [y])) as [t E]. rewrite E.
      exists (y :: t). rewrite <- app_assoc. reflexivity.
Qed.

Lemma uniq_aux_cons_fresh acc x l :
  ~ In x acc -> uniq_aux acc (x :: l) = uniq_aux (acc ++ [x]) l.
Proof.
  intro H. unfold uniq_aux at 1. cbn [fold_left].
  destruct (Py.mem x acc) eqn:E; [apply mem_In in E; contradiction|reflexivity].
Qed.

Lemma split_first_rel (files : list Entry) r :
  In r (map relp files) ->
  exists f1 f f2, files = f1 ++ f :: f2 /\ relp f = r /\ ~ In r (map relp f1).
Proof.
  induction files as [|p fs IH]; simpl; [intros []|].
  destruct (string_dec (relp p) r) as [E|E].
  - intros _. exists [], p, fs. simpl. auto.
  - intros [H|H]; [congruence|].
    destruct (IH H) as [f1 [f [f2 [-> [Hf Hn]]]]].
    exists (p :: f1), f, f2. simpl. repeat split; auto.
    intros [H'|H']; auto.
Qed.

Lemma score_one_fst d churn p : fst (score_one d churn p) = relp p.
Proof. reflexivity. Qed.

Lemma score_one_imported d churn p :
  m_imported_by_count (snd (score_one d churn p)) = get_or (relp p) d 0.
Proof. reflexivity. Qed.

Lemma In_keys_value (d : list (string * Z)) r :
  In r (map fst d) -> exists v, In (r, v) d.
Proof.
  intro H. apply in_map_iff in H as [[k v] [E H]]. simpl in E; subst.
  exists v; exact H.
Qed.

End FallbackFacts.

(** ** C5: the entrypoint fallback *)

(** Claim C5.  For a non-empty list of source files (every relative path
    a non-empty string), if no scored file is flagged as an entrypoint,
    the fallback flags exactly one: the first file, in scan order, whose
    [imported_by_count] is maximal.  Its score grows by [W_ENTRYPOINT]
    and every other record is left as it was (so unflagged). *)
Theorem fallback_flags_first_max (files : list Score.Entry) (churn : list string) :
  files <> [] ->
  Forall (fun p => rel_str (Score.e_rel p) <> "") files ->
  let ibc := Score.build_import_graph files in
  let scored := Score.score_all ibc churn files in
  Forall (fun x => Score.m_is_entrypoint (snd x) = 0) scored ->
  exists pre r m post,
    scored = (pre ++ (r, m) :: post)%list
    /\ Score.fallback ibc scored = (pre ++ (r, Score.flag_entry m) :: post)%list
    /\ Score.m_is_entrypoint (Score.flag_entry m) = 1
    /\ Score.m_score (Score.flag_entry m) = Score.m_score m + Score.W_ENTRYPOINT
    /\ Forall (fun x => Score.m_imported_by_count (snd x)
                        < Score.m_imported_by_count m) pre
    /\ Forall (fun x => Score.m_imported_by_count (snd x)
                        <= Score.m_imported_by_count m) post.
Proof.
  intros Hne Hrel ibc scored Hentry.
  (* the keys of [imported_by_count] are the relative paths, deduplicated *)
  assert (Keys : map fst ibc = Spec.uniq_aux [] (map Spec.relp files)).
  { unfold ibc. rewrite DictFacts.keys_build_import_graph.
    apply DictFacts.keys_file_key_by_relpath. }
  assert (Hibc : ibc <> []).
  { destruct files as [|p fs]; [congruence|]. intro E.
    assert (In (Spec.relp p) (map fst ibc)).
    { rewrite Keys. apply DictFacts.uniq_aux_In. simpl; auto. }
    rewrite E in H; simpl in H; exact H. }
  destruct (FallbackFacts.py_max_item_spec ibc Hibc)
    as [preI [[rs vs] [postI [EI [M [Hpre Hpost]]]]]].
  assert (HrsR : In rs (map Spec.relp files)).
  { assert (In rs (map fst ibc)) as H.
    { rewrite EI, map_app. apply in_or_app; simpl; auto. }
    rewrite Keys in H. apply DictFacts.uniq_aux_In in H as [[]|H]; exact H. }
  destruct (FallbackFacts.split_first_rel files rs HrsR)
    as [F1 [f [F2 [EF [Hf Hn]]]]].
  assert (Hget : forall p, In p files -> forall v,
             In (Spec.relp p, v) ibc ->
             Score.get_or (Spec.relp p) ibc 0 = v).
  { intros p _ v Hv. apply DictFacts.build_import_graph_get; exact Hv. }
  assert (Vrs : Score.get_or rs ibc 0 = vs).
  { apply DictFacts.build_import_graph_get. fold ibc. rewrite EI.
    apply in_or_app; simpl; auto. }
  set (so := Score.score_one ibc churn).
  exists (map so F1), rs, (snd (so f)), (map so F2).
  assert (Escored : scored = (map so F1 ++ (rs, snd (so f)) :: map so F2)%list).
  { unfold scored, Score.score_all. fold so. rewrite EF, map_app. cbn [map].
    f_equal. f_equal. rewrite <- Hf.
    rewrite (surjective_pairing (so f)) at 1. reflexivity. }
  split; [exact Escored|].
  split.
  { unfold Score.fallback.
    assert (Ex : existsb (fun '(_, m) => Score.m_is_entrypoint m =? 1) scored = false).
    { apply Bool.not_true_iff_false. intro T.
      apply existsb_exists in T as [[r0 m0] [Hin E]].
      rewrite Forall_forall in Hentry. specialize (Hentry _ Hin). simpl in Hentry.
      rewrite Hentry in E. discriminate. }
    rewrite Ex.
    assert (Hm : forall l : list (string * Z), l <> [] ->
              match l with [] => None | _ => option_map fst (Score.py_max_item l) end
              = option_map fst (Score.py_max_item l))
      by (intros [|? ?] H; [congruence|reflexivity]).
    rewrite (Hm ibc Hibc), M. cbn [option_map fst].
    destruct (String.eqb rs "") eqn:Es.
    { apply String.eqb_eq in Es. rewrite Forall_forall in Hrel.
      exfalso. apply (Hrel f); [rewrite EF; apply in_or_app; simpl; auto|].
      unfold Spec.relp in Hf. rewrite Hf. exact Es. }
    rewrite Escored. apply FallbackFacts.flag_first_split.
    rewrite map_map. unfold so. rewrite (map_ext _ Spec.relp); [exact Hn|].
    intro p; reflexivity. }
  split; [reflexivity|]. split; [reflexivity|].
  unfold so. rewrite FallbackFacts.score_one_imported. fold ibc.
  rewrite Hf, Vrs.
  (* the relative paths seen before [f] are keys listed before [rs] *)
  destruct (FallbackFacts.uniq_aux_prefix
              (Spec.uniq_aux [] (map Spec.relp F1) ++ [rs])
              (map Spec.relp F2)) as [t Et].
  assert (EU : map fst ibc
               = (Spec.uniq_aux [] (map Spec.relp F1) ++ rs :: t)%list).
  { rewrite Keys, EF, map_app. cbn [map]. rewrite Hf, DictFacts.uniq_aux_app.
    rewrite FallbackFacts.uniq_aux_cons_fresh.
    - rewrite Et, <- app_assoc. reflexivity.
    - intro Em. apply DictFacts.uniq_aux_In in Em as [[]|Em]. contradiction. }
  assert (EpreI : map fst preI = Spec.uniq_aux [] (map Spec.relp F1)).
  { symmetry. apply (DictFacts.NoDup_app_cons_eq _ _ t _ (map fst postI) rs).
    - rewrite <- EU. apply DictFacts.build_import_graph_NoDup.
    - rewrite <- EU, EI, map_app. reflexivity. }
  split.
  - apply Forall_forall. intros x Hx. apply in_map_iff in Hx as [p [<- Hp]].
    rewrite FallbackFacts.score_one_imported.
    assert (Hk : In (Spec.relp p) (map fst preI)).
    { rewrite EpreI. apply DictFacts.uniq_aux_In. right. apply in_map; exact Hp. }
    destruct (FallbackFacts.In_keys_value _ _ Hk) as [v Hv].
    rewrite (DictFacts.build_import_graph_get files _ v);
      [|fold ibc; rewrite EI; apply in_or_app; auto].
    rewrite Forall_forall in Hpre. apply (Hpre _ Hv).
  - apply Forall_forall. intros x Hx. apply in_map_iff in Hx as [p [<- Hp]].
    rewrite FallbackFacts.score_one_imported.
    assert (Hk : In (Spec.relp p) (map fst ibc)).
    { rewrite Keys. apply DictFacts.uniq_aux_In. right. rewrite EF, map_app.
      apply in_or_app. right. right. apply in_map; exact Hp. }
    destruct (FallbackFacts.In_keys_value _ _ Hk) as [v Hv].
    rewrite (DictFacts.build_import_graph_get files _ v); [|exact Hv].
    rewrite EI in Hv. apply in_app_or in Hv as [Hv|[Hv|Hv]].
    + rewrite Forall_forall in Hpre. specialize (Hpre _ Hv). simpl in *. lia.
    + injection Hv as _ ->. lia.
    + rewrite Forall_forall in Hpost. apply (Hpost _ Hv).
Qed.

Lemma fallback_flags_first_max_witness :
  let files := Fixtures.trio_files in
  let ibc := Score.build_import_graph files in
  let scored := Score.score_all ibc [] files in
  (files <> []
   /\ Forall (fun p => rel_str (Score.e_rel p) <> "") files
   /\ Forall (fun x => Score.m_is_entrypoint (snd x) = 0) scored)
  /\ exists pre r m post,
    scored = (pre ++ (r, m) :: post)%list
    /\ Score.fallback ibc scored = (pre ++ (r, Score.flag_entry m) :: post)%list
    /\ Score.m_is_entrypoint (Score.flag_entry m) = 1
    /\ Score.m_score (Score.flag_entry m) = Score.m_score m + Score.W_ENTRYPOINT
    /\ Forall (fun x => Score.m_imported_by_count (snd x)
                        < Score.m_imported_by_count m) pre
    /\ Forall (fun x => Score.m_imported_by_count (snd x)
                        <= Score.m_imported_by_count m) post.
Proof.
  intros files ibc scored.
  assert (H1 : files <> []) by (vm_compute; intro E; discriminate E).
  assert (H2 : Forall (fun p => rel_str (Score.e_rel p) <> "") files)
    by (vm_compute; repeat constructor; intro E; discriminate E).
  assert (H3 : Forall (fun x => Score.m_is_entrypoint (snd x) = 0) scored)
    by (vm_compute; repeat constructor).
  split; [split; [exact H1|split; assumption]|].
  exact (fallback_flags_first_max files [] H1 H2 H3).
Defined.

Module CountFacts.

Import Score Spec DictFacts FallbackFacts.
Local Open Scope list_scope.

Lemma dict_get_set {A} k k' (v : A) d :
  dict_get k (dict_set k' v d) = if String.eqb k k' then Some v else dict_get k d.
Proof.
  induction d as [|[k0 v0] d IH]; simpl.
  - destruct (String.eqb k k'); reflexivity.
  - destruct (String.eqb k' k0) eqn:E1; simpl.
    + apply String.eqb_eq in E1; subst.
      destruct (String.eqb k k0); reflexivity.
    + rewrite IH. destruct (String.eqb k k') eqn:E2; [|reflexivity].
      apply String.eqb_eq in E2; subst. rewrite E1. reflexivity.
Qed.

Lemma dict_set_fresh {A} k (v : A) d :
  ~ In k (map fst d) -> dict_set k v d = d ++ [(k, v)].
Proof.
  induction d as [|[k0 v0] d IH]; simpl; [reflexivity|]. intro H.
  destruct (String.eqb k k0) eqn:E.
  - apply String.eqb_eq in E; subst. exfalso; auto.
  - rewrite IH; auto.
Qed.

(** With pairwise distinct relative paths, [file_key_by_relpath] lists every
    file once, in scan order. *)
Lemma file_key_by_relpath_NoDup files :
  NoDup (map relp files) ->
  file_key_by_relpath files = map (fun p => (relp p, path_stem (e_rel p))) files.
Proof.
  unfold file_key_by_relpath.
  assert (G : forall l d, NoDup (map relp l) ->
            (forall p, In p l -> ~ In (relp p) (map fst d)) ->
            fold_left (fun d p => dict_set (rel_str (e_rel p)) (path_stem (e_rel p)) d) l d
            = d ++ map (fun p => (relp p, path_stem (e_rel p))) l).
  { induction l as [|p l IH]; intros d Hn Hf; simpl.
    - rewrite app_nil_r; reflexivity.
    - inversion Hn as [|? ? Hp Hn']; subst.
      change (rel_str (e_rel p)) with (relp p).
      rewrite dict_set_fresh by (apply Hf; simpl; auto).
      rewrite IH; [rewrite <- app_assoc; reflexivity|exact Hn'|].
      intros q Hq. rewrite map_app. simpl. intros H.
      apply in_app_or in H as [H|[H|[]]].
      + apply (Hf q); simpl; auto.
      + apply Hp. rewrite H. apply in_map; exact Hq. }
  intro Hn. apply G; [exact Hn|]. intros p _ [].
Qed.

Lemma imported_keys_NoDup p : NoDup (imported_keys p).
Proof.
  assert (G : forall found s, NoDup s ->
            NoDup (fold_left (fun s k => set_add k s) found s)).
  { induction found as [|k found IH]; intros s Hs; simpl; [exact Hs|].
    apply IH. unfold set_add. destruct (Py.mem k s) eqn:E; [exact Hs|].
    apply NoDup_app; auto using NoDup_cons, NoDup_nil.
    intros z Hz [<-|[]]. apply mem_In in Hz. congruence. }
  unfold imported_keys. apply G, NoDup_nil.
Qed.

Lemma inner_count pk k ks c :
  NoDup ks -> dict_get k pk <> None ->
  get_or k (fold_left (count_step pk) ks c) 0
  = get_or k c 0 + (if Py.mem k ks then 1 else 0).
Proof.
  revert c; induction ks as [|key ks IH]; intros c Hn Hk; simpl; [lia|].
  inversion Hn as [|? ? Hkey Hn']; subst.
  rewrite IH by assumption. unfold Py.mem; simpl.
  destruct (String.eqb k key) eqn:E; simpl.
  - apply String.eqb_eq in E; subst.
    assert (existsb (String.eqb key) ks = false) as ->.
    { apply Bool.not_true_iff_false. intro T. apply Hkey.
      apply (proj1 (mem_In key ks)); exact T. }
    unfold count_step. destruct (dict_get key pk) eqn:G; [|congruence].
    unfold get_or at 1. rewrite dict_get_set, String.eqb_refl. lia.
  - unfold count_step. destruct (dict_get key pk); [|reflexivity].
    unfold get_or at 1. rewrite dict_get_set, E. reflexivity.
Qed.

Lemma imported_by_get files k :
  dict_get k (paths_by_key (file_key_by_relpath files)) <> None ->
  get_or k (imported_by files) 0 = Z.of_nat (importers files k).
Proof.
  intro Hk. unfold imported_by, importers.
  set (pk := paths_by_key (file_key_by_relpath files)) in *.
  change (fun c key => match dict_get key pk with
                       | Some _ => dict_set key (get_or key c 0 + 1) c
                       | None => c end) with (count_step pk).
  assert (G : forall l c,
            get_or k (fold_left (fun c p => fold_left (count_step pk) (imported_keys p) c) l c) 0
            = get_or k c 0 + Z.of_nat (length (filter (fun q => Py.mem k (imported_keys q)) l))).
  { induction l as [|p l IH]; intro c; simpl; [lia|].
    rewrite IH, inner_count by (apply imported_keys_NoDup || exact Hk).
    destruct (Py.mem k (imported_keys p)); simpl; lia. }
  rewrite G. reflexivity.
Qed.

Lemma paths_by_key_has fk r k :
  In (r, k) fk -> dict_get k (paths_by_key fk) <> None.
Proof.
  unfold paths_by_key.
  assert (G : forall l d, (dict_get k d <> None \/ exists r, In (r, k) l) ->
            dict_get k (fold_left (fun d '(rel, key) =>
               dict_set key (set_add rel (get_or key d [])) d) l d) <> None).
  { induction l as [|[r0 k0] l IH]; intros d H; simpl.
    - destruct H as [H|[? []]]; exact H.
    - apply IH. rewrite dict_get_set.
      destruct (String.eqb k k0) eqn:E; [left; discriminate|].
      destruct H as [H|[r1 [H|H]]]; auto.
      + injection H as _ ->. rewrite String.eqb_refl in E. discriminate.
      + right; eauto. }
  intro H. apply G. right; eauto.
Qed.

(** Under distinct relative paths, the count stored for a file is the
    number of files importing its stem. *)
Lemma build_import_graph_value files p :
  NoDup (map relp files) -> In p files ->
  get_or (relp p) (build_import_graph files) 0
  = Z.of_nat (importers files (path_stem (e_rel p))).
Proof.
  intros Hn Hp.
  assert (Hin : In (relp p, get_or (path_stem (e_rel p)) (imported_by files) 0)
                   (build_import_graph files)).
  { unfold build_import_graph. rewrite file_key_by_relpath_NoDup by exact Hn.
    rewrite map_map.
    exact (in_map (fun p => (relp p, get_or (path_stem (e_rel p)) (imported_by files) 0)) _ _ Hp). }
  rewrite (build_import_graph_get _ _ _ Hin).
  apply imported_by_get.
  apply (paths_by_key_has _ (relp p)).
  rewrite file_key_by_relpath_NoDup by exact Hn.
  apply (in_map (fun p => (relp p, path_stem (e_rel p)))); exact Hp.
Qed.

End CountFacts.

Module ScanFacts.

Import Scan Spec.
Local Open Scope list_scope.

Lemma add_node_In d rel id :
  In id (map n_id (_add_node d rel)) <-> In id (map n_id d) \/ id = as_posix rel.
Proof.
  unfold _add_node.
  destruct (existsb (fun n => String.eqb (n_id n) (as_posix rel)) d) eqn:E.
  - split; [tauto|]. intros [H| ->]; [exact H|].
    apply existsb_exists in E as [n [Hn En]]. apply String.eqb_eq in En.
    rewrite <- En. apply in_map; exact Hn.
  - rewrite map_app. simpl. rewrite in_app_iff. simpl. split.
    + intros [H|[H|[]]]; auto.
    + intros [H|H]; auto.
Qed.

Lemma add_node_NoDup d rel :
  NoDup (map n_id d) -> NoDup (map n_id (_add_node d rel)).
Proof.
  intro Hd. unfold _add_node.
  destruct (existsb (fun n => String.eqb (n_id n) (as_posix rel)) d) eqn:E; [exact Hd|].
  rewrite map_app. simpl. apply NoDup_app; auto using NoDup_cons, NoDup_nil.
  intros z Hz [Hz'|[]]; subst z.
  apply in_map_iff in Hz as [n [En Hn]].
  assert (existsb (fun n => String.eqb (n_id n) (as_posix rel)) d = true) as T.
  { apply existsb_exists. exists n. split; [exact Hn|]. apply String.eqb_eq; exact En. }
  congruence.
Qed.

Lemma add_nodes_In rs d id :
  In id (map n_id (fold_left _add_node rs d))
  <-> In id (map n_id d) \/ exists r, In r rs /\ id = as_posix r.
Proof.
  revert d; induction rs as [|r rs IH]; intro d; simpl.
  - split; [tauto|]. intros [H|[? [[] _]]]; exact H.
  - rewrite IH, add_node_In. split.
    + intros [[H|H]|[r' [Hr H]]]; eauto.
    + intros [H|[r' [[<-|Hr] H]]]; eauto.
Qed.

Lemma add_nodes_NoDup rs d :
  NoDup (map n_id d) -> NoDup (map n_id (fold_left _add_node rs d)).
Proof.
  revert d; induction rs as [|r rs IH]; intros d Hd; simpl; auto using add_node_NoDup.
Qed.

(** The two loops, flattened: the nodes are added in the order paths are
    met and one edge is appended per yielded target. *)
Lemma build_graph_with_eq extract src :
  build_graph_with extract src
  = {| nodes := fold_left _add_node (map w_rel src ++ flat_map extract src) [];
       edges := flat_map (fun f => map (mk_edge f) (extract f)) src |}.
Proof.
  unfold build_graph_with.
  assert (Inner : forall f ts d es,
            fold_left (fun '(d, es) tgt_rel =>
              (_add_node d tgt_rel,
               es ++ [{| source := as_posix (w_rel f); target := as_posix tgt_rel |}]))
              ts (d, es)
            = (fold_left _add_node ts d, es ++ map (mk_edge f) ts)).
  { induction ts as [|t ts IH]; intros d es; simpl.
    - rewrite app_nil_r; reflexivity.
    - rewrite IH, <- app_assoc. reflexivity. }
  assert (Outer : forall l d es,
            fold_left (fun '(d, es) f =>
              fold_left (fun '(d, es) tgt_rel =>
                (_add_node d tgt_rel,
                 es ++ [{| source := as_posix (w_rel f); target := as_posix tgt_rel |}]))
                (extract f) (d, es)) l (d, es)
            = (fold_left _add_node (flat_map extract l) d,
               es ++ flat_map (fun f => map (mk_edge f) (extract f)) l)).
  { induction l as [|f l IH]; intros d es; simpl.
    - rewrite app_nil_r; reflexivity.
    - rewrite Inner, IH, fold_left_app, <- app_assoc. reflexivity. }
  assert (First : forall l d,
            fold_left (fun d f => _add_node d (w_rel f)) l d
            = fold_left _add_node (map w_rel l) d).
  { induction l as [|f l IH]; intro d; simpl; [reflexivity|apply IH]. }
  rewrite First, Outer, fold_left_app. reflexivity.
Qed.

Lemma build_graph_with_props extract src :
  let g := build_graph_with extract src in
  (forall e, In e (edges g) ->
     In (source e) (map n_id (nodes g)) /\ In (target e) (map n_id (nodes g)))
  /\ NoDup (map n_id (nodes g))
  /\ (forall id, In id (map n_id (nodes g)) <->
        exists f, In f src /\
          (id = as_posix (w_rel f) \/ exists t, In t (extract f) /\ id = as_posix t)).
Proof.
  cbv zeta. rewrite build_graph_with_eq. simpl.
  assert (Hids : forall id, In id (map n_id (fold_left _add_node
                   (map w_rel src ++ flat_map extract src) [])) <->
            exists f, In f src /\
              (id = as_posix (w_rel f) \/ exists t, In t (extract f) /\ id = as_posix t)).
  { intro id. rewrite add_nodes_In. simpl. split.
    - intros [[]|[r [Hr ->]]]. apply in_app_or in Hr as [Hr|Hr].
      + apply in_map_iff in Hr as [f [<- Hf]]. eauto.
      + apply in_flat_map in Hr as [f [Hf Ht]]. exists f. split; [exact Hf|]. right; eauto.
    - intros [f [Hf [->|[t [Ht ->]]]]]; right.
      + exists (w_rel f). split; [|reflexivity]. apply in_or_app; left; apply in_map; exact Hf.
      + exists t. split; [|reflexivity]. apply in_or_app; right.
        apply in_flat_map; eauto. }
  split; [|split].
  - intros e He. apply in_flat_map in He as [f [Hf He]].
    apply in_map_iff in He as [t [<- Ht]]. unfold mk_edge; simpl.
    rewrite !Hids. split; exists f; split; auto; right; exists t; auto.
  - apply add_nodes_NoDup. constructor.
  - exact Hids.
Qed.

(** [relative_to] succeeds only on paths under the root. *)
Lemma relative_to_app p root r :
  relative_to p root = Some r -> p = root ++ r.
Proof.
  revert p; induction root as [|a root IH]; intros p H.
  - destruct p; simpl in *; congruence.
  - destruct p as [|s p]; simpl in H; [discriminate|].
    destruct (String.eqb a s) eqn:E; [|discriminate].
    apply String.eqb_eq in E; subst. simpl. f_equal. apply IH; exact H.
Qed.

Lemma extract_one_In fs root resolver fpath spec r :
  In r (extract_one fs root resolver fpath spec) ->
  spec <> "" /\ exists tgt, resolver fs spec fpath = Some tgt /\
                            resolve tgt = resolve root ++ r.
Proof.
  unfold extract_one.
  destruct (String.eqb spec "") eqn:Es; [intros []|].
  destruct (resolver fs spec fpath) as [tgt|]; [|intros []].
  destruct (relative_to (resolve tgt) (resolve root)) as [rel|] eqn:Er; [|intros []].
  intros [<-|[]]. split; [intro; subst; discriminate|]. exists tgt. split; [reflexivity|]. apply relative_to_app; exact Er.
Qed.

End ScanFacts.

Module LayoutFacts.

Import Layout.
Local Open Scope list_scope.

Lemma node_ids_KeyError ns :
  node_ids ns = KeyError <-> Exists (fun n => nj_id n = None) ns.
Proof.
  induction ns as [|n ns IH]; simpl.
  - split; [discriminate|]. intro H; inversion H.
  - rewrite Exists_cons.
    destruct (nj_id n) as [i|] eqn:E; destruct (node_ids ns) as [is|] eqn:E2.
    + split; [discriminate|]. intros [H|H]; [discriminate|]. apply IH in H; discriminate.
    + split; intros _; [right; apply IH; reflexivity|reflexivity].
    + split; intros _; [left; reflexivity|reflexivity].
    + split; intros _; [left; reflexivity|reflexivity].
Qed.

Lemma node_ids_Ok ns is : node_ids ns = Ok is -> map nj_id ns = map Some is.
Proof.
  revert is; induction ns as [|n ns IH]; intros is H; simpl in *.
  - injection H as <-. reflexivity.
  - destruct (nj_id n) as [i|]; destruct (node_ids ns) as [is'|] eqn:E2; try discriminate.
    injection H as <-. simpl. f_equal. apply IH; reflexivity.
Qed.

Lemma add_nodes_from_spec g ids :
  nx_edges (add_nodes_from g ids) = nx_edges g
  /\ forall i, In i (nx_nodes (add_nodes_from g ids)) <-> In i (nx_nodes g) \/ In i ids.
Proof.
  unfold add_nodes_from. revert g; induction ids as [|k ids IH]; intro g; simpl.
  - split; [reflexivity|]. intro i; split; [tauto|]. intros [H|[]]; exact H.
  - destruct (Py.mem k (nx_nodes g)) eqn:E.
    + destruct (IH g) as [He Hi]. split; [exact He|]. intro i. rewrite Hi.
      apply DictFacts.mem_In in E. split; [tauto|]. intros [H|[<-|H]]; auto.
    + destruct (IH {| nx_nodes := nx_nodes g ++ [k]; nx_edges := nx_edges g |}) as [He Hi].
      split; [exact He|]. intro i. rewrite Hi. simpl. rewrite in_app_iff. simpl.
      split; [intros [[H|[H|[]]]|H]; auto|intros [H|[H|H]]; auto].
Qed.

Definition edges_ok (g : NxGraph) : Prop :=
  forall s t, In (s, t) (nx_edges g) -> In s (nx_nodes g) /\ In t (nx_nodes g).

Definition edge_step (g : NxGraph) (e : EdgeJson) : NxGraph :=
  if nx_has_node g (ej_source e) && nx_has_node g (ej_target e)
  then match ej_source e, ej_target e with
       | Some s, Some t => add_edge g s t
       | _, _ => g
       end
  else g.

Lemma edge_fold_spec es g :
  nx_nodes (fold_left edge_step es g) = nx_nodes g
  /\ (edges_ok g -> edges_ok (fold_left edge_step es g)).
Proof.
  revert g; induction es as [|e es IH]; intro g; simpl; [tauto|].
  destruct (IH (edge_step g e)) as [Hn Hok].
  assert (Step : nx_nodes (edge_step g e) = nx_nodes g
                 /\ (edges_ok g -> edges_ok (edge_step g e))).
  { unfold edge_step.
    destruct (nx_has_node g (ej_source e)) eqn:Es; [|tauto].
    destruct (nx_has_node g (ej_target e)) eqn:Et; [|tauto]. simpl.
    destruct (ej_source e) as [s|]; [|tauto]. destruct (ej_target e) as [t|]; [|tauto].
    unfold add_edge. destruct (existsb (pair_eqb (s, t)) (nx_edges g)); [tauto|].
    split; [reflexivity|]. intros Hg s' t' H. simpl in *.
    apply in_app_or in H as [H|[H|[]]]; [apply Hg; exact H|].
    injection H as <- <-. apply DictFacts.mem_In in Es, Et. auto. }
  destruct Step as [S1 S2]. split.
  - rewrite Hn; exact S1.
  - intro Hg. apply Hok, S2, Hg.
Qed.

Section TwoNodes.

Local Open Scope R_scope.





End TwoNodes.

End LayoutFacts.

(** ** C2: the dependency graph *)

(** Claim C2.  In the graph returned by [build_dependency_graph], both
    ends of every edge are node ids, node ids are pairwise distinct, and
    the ids are exactly the POSIX paths of the scanned source files and of
    the in-root targets their imports resolve to. *)
Theorem dependency_graph_well_formed (fs : Scan.FS) (root : path)
  (walked : list Scan.Walked) :
  let g := Scan.build_dependency_graph fs root walked in
  (forall e, In e (Scan.edges g) ->
     In (Scan.source e) (map Scan.n_id (Scan.nodes g))
     /\ In (Scan.target e) (map Scan.n_id (Scan.nodes g)))
  /\ NoDup (map Scan.n_id (Scan.nodes g))
  /\ (forall id, In id (map Scan.n_id (Scan.nodes g)) <->
        exists f, In f (Scan.src_files walked) /\
          (id = as_posix (Scan.w_rel f)
           \/ exists t, In t (Scan._extract_imports_for_file fs root
                               (root ++ Scan.w_rel f)%list (Scan.w_text f))
                        /\ id = as_posix t)).
Proof.
  apply ScanFacts.build_graph_with_props.
Qed.

(** ** C3: resolution stays inside the root *)

(** Claim C3.  Every path [_extract_imports_for_file] yields comes from a
    specifier the JS or Python resolver resolves, and lies under the root:
    the resolved target is the resolved root followed by the yielded path.
    A specifier the resolver cannot resolve, or one whose target falls
    outside the root, yields nothing; the function is total, so neither
    case raises. *)
Theorem resolver_targets_inside_root (fs : Scan.FS) (root fpath : path)
  (text : Text) :
  (forall r, In r (Scan._extract_imports_for_file fs root fpath text) ->
     exists spec tgt,
       ((In spec (dep_js_specs text) /\ Scan._resolve_js_like fs spec fpath = Some tgt)
        \/ (In spec (dep_py_specs text) /\ Scan._resolve_py_like fs spec fpath = Some tgt))
       /\ Scan.resolve tgt = (Scan.resolve root ++ r)%list)
  /\ (forall resolver spec, resolver fs spec fpath = None ->
        Scan.extract_one fs root resolver fpath spec = [])
  /\ (forall resolver spec tgt, resolver fs spec fpath = Some tgt ->
        Scan.relative_to (Scan.resolve tgt) (Scan.resolve root) = None ->
        Scan.extract_one fs root resolver fpath spec = []).
Proof.
  split; [|split].
  - intros r. unfold Scan._extract_imports_for_file.
    destruct (Py.mem _ Scan.JS_TS_EXTS).
    + intro H. apply in_flat_map in H as [spec [Hs Hr]].
      apply ScanFacts.extract_one_In in Hr as [_ [tgt [Ht Hp]]].
      exists spec, tgt. split; [left; split; assumption|exact Hp].
    + destruct (Py.mem _ Scan.PY_EXTS); [|intros []].
      intro H. apply in_flat_map in H as [spec [Hs Hr]].
      apply ScanFacts.extract_one_In in Hr as [_ [tgt [Ht Hp]]].
      exists spec, tgt. split; [right; split; assumption|exact Hp].
  - intros resolver spec H. unfold Scan.extract_one. rewrite H.
    destruct (String.eqb spec ""); reflexivity.
  - intros resolver spec tgt H Hr. unfold Scan.extract_one. rewrite H, Hr.
    destruct (String.eqb spec ""); reflexivity.
Qed.

Module SortFacts.

Import Score ExtraSpec.
Local Open Scope list_scope.

Lemma key_le_total a b : key_le a b = false -> key_le b a = true.
Proof.
  revert b; induction a as [|x a IH]; intros [|y b]; simpl; try discriminate; auto.
  intro H. apply orb_false_iff in H as [H1 H2].
  apply Z.ltb_ge in H1.
  destruct (Z.eq_dec x y) as [->|Hne].
  - rewrite Z.eqb_refl in H2; simpl in H2. rewrite Z.ltb_irrefl, Z.eqb_refl, IH; auto.
  - assert (y < x) by lia. apply orb_true_iff; left; apply Z.ltb_lt; lia.
Qed.

Lemma key_le_trans a b c :
  length a = length b -> length b = length c ->
  key_le a b = true -> key_le b c = true -> key_le a c = true.
Proof.
  revert b c; induction a as [|x a IH]; intros [|y b] [|z c]; simpl;
    try discriminate; auto.
  intros L1 L2 H1 H2.
  apply orb_true_iff in H1, H2. apply orb_true_iff.
  destruct H1 as [H1|H1], H2 as [H2|H2].
  - left. apply Z.ltb_lt in H1, H2. apply Z.ltb_lt. lia.
  - left. apply andb_true_iff in H2 as [H2 _]. apply Z.ltb_lt in H1.
    apply Z.eqb_eq in H2. apply Z.ltb_lt. lia.
  - left. apply andb_true_iff in H1 as [H1 _]. apply Z.ltb_lt in H2.
    apply Z.eqb_eq in H1. apply Z.ltb_lt. lia.
  - right. apply andb_true_iff in H1 as [H1 H1'], H2 as [H2 H2'].
    apply Z.eqb_eq in H1, H2. apply andb_true_iff. split.
    + apply Z.eqb_eq. lia.
    + apply (IH b c); auto; lia.
Qed.

Lemma ranks_before_trans : forall x y z, ranks_before x y -> ranks_before y z -> ranks_before x z.
Proof.
  intros x y z H1 H2. unfold ranks_before in *.
  apply (key_le_trans _ (sort_key (snd y))); auto.
Qed.

Lemma insert_desc_perm x l : Permutation (insert_desc x l) (x :: l).
Proof.
  induction l as [|y l IH]; cbn [insert_desc]; [auto|].
  destruct (key_le (sort_key (snd x)) (sort_key (snd y))); [|auto].
  eapply perm_trans; [apply perm_skip, IH|apply perm_swap].
Qed.

Lemma sort_desc_perm l : Permutation (sort_desc l) l.
Proof.
  unfold sort_desc.
  assert (G : forall l acc, Permutation (fold_left (fun acc x => insert_desc x acc) l acc) (l ++ acc)).
  { induction l0 as [|x l0 IH]; intro acc; simpl; [auto|].
    eapply perm_trans; [apply IH|].
    eapply perm_trans; [apply Permutation_app_head, insert_desc_perm|].
    apply Permutation_sym, Permutation_middle. }
  rewrite <- (app_nil_r l) at 2. apply G.
Qed.

Lemma insert_desc_sorted x l :
  Sorted ranks_before l -> Sorted ranks_before (insert_desc x l).
Proof.
  induction l as [|y l IH]; intro Hs; cbn [insert_desc]; [auto|].
  destruct (key_le (sort_key (snd x)) (sort_key (snd y))) eqn:E.
  - apply Sorted_inv in Hs as [Hs Hh].
    constructor; [apply IH, Hs|].
    destruct l as [|z l]; cbn [insert_desc].
    + constructor. exact E.
    + destruct (key_le (sort_key (snd x)) (sort_key (snd z))).
      * apply HdRel_inv in Hh. constructor. exact Hh.
      * constructor. exact E.
  - constructor; [exact Hs|]. constructor. apply key_le_total, E.
Qed.

Lemma sort_desc_sorted l : StronglySorted ranks_before (sort_desc l).
Proof.
  apply Sorted_StronglySorted; [exact ranks_before_trans|].
  unfold sort_desc.
  assert (G : forall l acc, Sorted ranks_before acc ->
            Sorted ranks_before (fold_left (fun acc x => insert_desc x acc) l acc)).
  { induction l0 as [|x l0 IH]; intros acc H; simpl; [exact H|].
    apply IH, insert_desc_sorted, H. }
  apply G. constructor.
Qed.

Lemma py_take_prefix {A} n (l : list A) : exists rest, py_take n l ++ rest = l.
Proof.
  unfold py_take. destruct (0 <=? n); eexists; apply firstn_skipn.
Qed.

Lemma py_take_length {A} n (l : list A) :
  Z.of_nat (length (py_take n l))
  = if 0 <=? n then Z.min n (Z.of_nat (length l)) else Z.max 0 (Z.of_nat (length l) + n).
Proof.
  unfold py_take. destruct (0 <=? n) eqn:E; rewrite length_firstn.
  - apply Z.leb_le in E. rewrite Nat2Z.inj_min, Z2Nat.id by lia. reflexivity.
  - apply Z.leb_gt in E. destruct (Z.le_gt_cases 0 (Z.of_nat (length l) + n)).
    + rewrite Nat2Z.inj_min, Z2Nat.id by lia. lia.
    + destruct (Z.of_nat (length l) + n) as [|q|q] eqn:Ez; simpl; lia.
Qed.

Lemma fallback_nil d : fallback d [] = [].
Proof.
  unfold fallback. simpl. destruct d; [reflexivity|].
  destruct (option_map _ _) as [r|]; [|reflexivity].
  destruct (String.eqb r ""); reflexivity.
Qed.

Lemma flag_first_keys r l : map fst (flag_first r l) = map fst l.
Proof.
  induction l as [|[k m] l IH]; simpl; [reflexivity|].
  destruct (String.eqb k r); simpl; [reflexivity|]. rewrite IH; reflexivity.
Qed.

Lemma fallback_keys d l : map fst (fallback d l) = map fst l.
Proof.
  unfold fallback. destruct (existsb _ l); [reflexivity|].
  destruct d; [reflexivity|].
  destruct (option_map _ _) as [r|]; [|reflexivity].
  destruct (String.eqb r ""); [reflexivity|]. apply flag_first_keys.
Qed.

Lemma score_files_prefix (entries : list Score.Entry) (churn : list string)
  (top_n : Z) (exts : list string) :
  let files := Score.iter_source_files entries exts in
  let ibc := Score.build_import_graph files in
  exists rest,
    Permutation (Score.score_files entries churn top_n exts ++ rest)
                (Score.fallback ibc (Score.score_all ibc churn files))
    /\ StronglySorted ExtraSpec.ranks_before (Score.score_files entries churn top_n exts ++ rest).
Proof.
  intros files ibc. unfold Score.score_files. fold files. fold ibc.
  destruct files as [|f fs] eqn:Ef.
  - exists []. simpl. rewrite fallback_nil. split; constructor.
  - rewrite <- Ef. fold ibc.
    destruct (py_take_prefix top_n (Score.sort_desc (Score.fallback ibc (Score.score_all ibc churn files)))) as [rest Hr].
    exists rest. rewrite Hr. split; [apply sort_desc_perm|apply sort_desc_sorted].
Qed.

End SortFacts.

(** ** C1: what the scorer's reverse-edge count counts *)

(** Claim C1 (counterexample).  [a.js] imports [./b] twice: the scanner's
    graph has two edges into [b.js], while the scorer gives [b.js] the
    count 1. *)
Lemma reverse_count_not_edge_count :
  length (filter (fun e => String.eqb (Scan.target e) "b.js")
            (Scan.edges (Scan.build_dependency_graph Fixtures.twice_fs
                           Fixtures.twice_root Fixtures.twice_walked))) = 2%nat
  /\ Score.get_or "b.js"
       (Score.build_import_graph
          (Score.iter_source_files Fixtures.twice_entries Score.DEFAULT_EXTS)) 0 = 1.
Proof.
  split; vm_compute; reflexivity.
Qed.

(** Claim C1 (amended).  When the scanned files have pairwise distinct
    normalised relative paths, the count the scorer stores for a file is
    the number of scanned files whose import-key set contains the file's
    stem: each importing file counts once, whatever the number of its
    import statements. *)
Theorem imported_by_count_counts_importers (files : list Score.Entry)
  (p : Score.Entry) :
  NoDup (map Spec.relp files) -> In p files ->
  Score.get_or (Spec.relp p) (Score.build_import_graph files) 0
  = Z.of_nat (Spec.importers files (path_stem (Score.e_rel p))).
Proof.
  intros Hn Hp. exact (CountFacts.build_import_graph_value files p Hn Hp).
Qed.

Lemma imported_by_count_counts_importers_witness :
  let a := Fixtures.src ["a.js"] Fixtures.a_once 30 in
  let b := Fixtures.src ["b.js"] empty_text 10 in
  let c := Fixtures.src ["c.js"] empty_text 10 in
  let pa := Fixtures.src ["a.py"] Fixtures.a_py_rel 50 in
  let pb := Fixtures.src ["b.py"] empty_text 10 in
  let pc := Fixtures.src ["c.py"] empty_text 10 in
  let ibc := Score.build_import_graph Fixtures.trio_files in
  let pibc := Score.build_import_graph Fixtures.py_trio_files in
  (NoDup (map Spec.relp Fixtures.trio_files)
   /\ In a Fixtures.trio_files /\ In b Fixtures.trio_files /\ In c Fixtures.trio_files
   /\ NoDup (map Spec.relp Fixtures.py_trio_files)
   /\ In pa Fixtures.py_trio_files /\ In pb Fixtures.py_trio_files
   /\ In pc Fixtures.py_trio_files)
  /\ (Score.get_or (Spec.relp a) ibc 0 = 0 /\ Score.get_or (Spec.relp b) ibc 0 = 1
      /\ Score.get_or (Spec.relp c) ibc 0 = 0)
  /\ (Score.get_or (Spec.relp pa) pibc 0 = 0 /\ Score.get_or (Spec.relp pb) pibc 0 = 0
      /\ Score.get_or (Spec.relp pc) pibc 0 = 0).
Proof.
  intros a b c pa pb pc ibc pibc.
  assert (Hn : NoDup (map Spec.relp Fixtures.trio_files)).
  { vm_compute. repeat constructor; simpl; intuition discriminate. }
  assert (Ha : In a Fixtures.trio_files) by (vm_compute; left; reflexivity).
  assert (Hb : In b Fixtures.trio_files) by (vm_compute; right; left; reflexivity).
  assert (Hc : In c Fixtures.trio_files) by (vm_compute; right; right; left; reflexivity).
  assert (Hpn : NoDup (map Spec.relp Fixtures.py_trio_files)).
  { vm_compute. repeat constructor; simpl; intuition discriminate. }
  assert (Hpa : In pa Fixtures.py_trio_files) by (vm_compute; left; reflexivity).
  assert (Hpb : In pb Fixtures.py_trio_files) by (vm_compute; right; left; reflexivity).
  assert (Hpc : In pc Fixtures.py_trio_files)
    by (vm_compute; right; right; left; reflexivity).
  split; [repeat split; assumption|]. unfold ibc, pibc.
  rewrite (imported_by_count_counts_importers _ a Hn Ha),
    (imported_by_count_counts_importers _ b Hn Hb),
    (imported_by_count_counts_importers _ c Hn Hc),
    (imported_by_count_counts_importers _ pa Hpn Hpa),
    (imported_by_count_counts_importers _ pb Hpn Hpb),
    (imported_by_count_counts_importers _ pc Hpn Hpc).
  split; vm_compute; repeat split.
Defined.

(** ** C10: equal stems *)

(** Claim C10 (counterexample).  [a\x.py] and [b/a\x.py] both have stem
    [a\x].  The first is stored under the key ["a/x.py"], which [a/x.py]
    (stem [x]) overwrites, so it gets the count of [x]; the two end with
    different counts. *)
Lemma equal_stems_different_counts :
  let files := Score.iter_source_files Fixtures.clash_files Score.DEFAULT_EXTS in
  let ibc := Score.build_import_graph files in
  In Fixtures.clash_top files /\ In Fixtures.clash_sub files
  /\ path_stem (Score.e_rel Fixtures.clash_top) = path_stem (Score.e_rel Fixtures.clash_sub)
  /\ Score.get_or (Spec.relp Fixtures.clash_top) ibc 0 = 1
  /\ Score.get_or (Spec.relp Fixtures.clash_sub) ibc 0 = 0.
Proof.
  vm_compute. split; [left; reflexivity|].
  split; [right; right; left; reflexivity|].
  repeat split.
Qed.

(** Claim C10 (amended).  When the scanned files have pairwise distinct
    normalised relative paths, two of them with equal stems get the same
    reverse-edge count. *)
Theorem equal_stems_equal_counts (files : list Score.Entry) (p q : Score.Entry) :
  NoDup (map Spec.relp files) -> In p files -> In q files ->
  path_stem (Score.e_rel p) = path_stem (Score.e_rel q) ->
  Score.get_or (Spec.relp p) (Score.build_import_graph files) 0
  = Score.get_or (Spec.relp q) (Score.build_import_graph files) 0.
Proof.
  intros Hn Hp Hq Hs.
  rewrite (CountFacts.build_import_graph_value files p Hn Hp).
  rewrite (CountFacts.build_import_graph_value files q Hn Hq).
  rewrite Hs. reflexivity.
Qed.

Lemma equal_stems_equal_counts_witness :
  (NoDup (map Spec.relp Fixtures.pair_files)
   /\ In Fixtures.pair_a Fixtures.pair_files /\ In Fixtures.pair_b Fixtures.pair_files
   /\ path_stem (Score.e_rel Fixtures.pair_a) = path_stem (Score.e_rel Fixtures.pair_b))
  /\ Score.get_or (Spec.relp Fixtures.pair_a) (Score.build_import_graph Fixtures.pair_files) 0
     = Score.get_or (Spec.relp Fixtures.pair_b) (Score.build_import_graph Fixtures.pair_files) 0.
Proof.
  assert (Hn : NoDup (map Spec.relp Fixtures.pair_files)).
  { vm_compute. repeat constructor; simpl; intuition discriminate. }
  assert (Ha : In Fixtures.pair_a Fixtures.pair_files) by (vm_compute; left; reflexivity).
  assert (Hb : In Fixtures.pair_b Fixtures.pair_files) by (vm_compute; right; left; reflexivity).
  assert (Hs : path_stem (Score.e_rel Fixtures.pair_a) = path_stem (Score.e_rel Fixtures.pair_b))
    by (vm_compute; reflexivity).
  split; [repeat split; assumption|].
  apply (equal_stems_equal_counts Fixtures.pair_files Fixtures.pair_a Fixtures.pair_b Hn Ha Hb Hs).
Defined.

(** ** C8: the byte caps *)

(** Claim C8 (counterexample).  A Python file of 400001 bytes is not
    among the scorer's source files; at 400000 bytes it is. *)
Lemma oversized_file_excluded :
  Score.iter_source_files [Fixtures.big_entry] Score.DEFAULT_EXTS = []
  /\ Score.e_size Fixtures.big_entry > Score.MAX_FILE_BYTES
  /\ Score.iter_source_files [Fixtures.src ["big.py"] empty_text 400000] Score.DEFAULT_EXTS
     = [Fixtures.src ["big.py"] empty_text 400000].
Proof.
  split; [vm_compute; reflexivity|]. split; [vm_compute; reflexivity|].
  vm_compute; reflexivity.
Qed.

(** Claim C8 (amended).  The scorer keeps a file exactly when it is a
    regular file with a selected extension, outside the ignored
    directories, and of at most [MAX_FILE_BYTES] = 400000 bytes.  Larger
    files take no part in scoring: [score_files] returns the same rows
    when they are deleted from the repository, and no row it returns has
    more than [MAX_FILE_BYTES] bytes.  The scanner's key-file reader
    keeps the first [MAX_KEY_FILE_BYTES] = 60000 bytes of a file. *)
Theorem source_files_within_cap (entries : list Score.Entry) (churn : list string)
  (top_n : Z) (exts : list string) (p : Score.Entry) (data : list Byte.byte) :
  (In p (Score.iter_source_files entries exts) <->
     In p entries /\ Score.e_is_file p = true
     /\ Py.mem (Py.lower (path_suffix (Score.e_rel p))) exts = true
     /\ Score.in_ignored_dir (Score.e_rel p) = false
     /\ Score.e_size p <= Score.MAX_FILE_BYTES)
  /\ Score.score_files entries churn top_n exts
     = Score.score_files
         (filter (fun q => Score.e_size q <=? Score.MAX_FILE_BYTES) entries)
         churn top_n exts
  /\ (forall r m, In (r, m) (Score.score_files entries churn top_n exts) ->
                  Score.m_bytes m <= Score.MAX_FILE_BYTES)
  /\ Scan._read_text_capped data Scan.MAX_KEY_FILE_BYTES
     = firstn Scan.MAX_KEY_FILE_BYTES data.
Proof.
  assert (Hiff : forall q, In q (Score.iter_source_files entries exts) <->
     In q entries /\ Score.e_is_file q = true
     /\ Py.mem (Py.lower (path_suffix (Score.e_rel q))) exts = true
     /\ Score.in_ignored_dir (Score.e_rel q) = false
     /\ Score.e_size q <= Score.MAX_FILE_BYTES).
  { intro q. unfold Score.iter_source_files. rewrite filter_In.
    rewrite !Bool.andb_true_iff, Bool.negb_true_iff, Z.leb_le. tauto. }
  split; [apply Hiff|]. split; [|split].
  - assert (Hf : forall (f g : Score.Entry -> bool) l,
               (forall q, f q = true -> g q = true) ->
               filter f (filter g l) = filter f l).
    { intros f g l Hfg. induction l as [|q l IH]; [reflexivity|]. simpl.
      destruct (g q) eqn:Eg; simpl.
      - rewrite IH. reflexivity.
      - destruct (f q) eqn:Ef; [|exact IH].
        apply Hfg in Ef. congruence. }
    assert (Ei : Score.iter_source_files
                   (filter (fun q => Score.e_size q <=? Score.MAX_FILE_BYTES) entries) exts
                 = Score.iter_source_files entries exts).
    { unfold Score.iter_source_files. apply Hf.
      intros q Hq. rewrite !Bool.andb_true_iff in Hq. tauto. }
    unfold Score.score_files. rewrite Ei. reflexivity.
  - intros r m H.
    destruct (SortFacts.score_files_prefix entries churn top_n exts) as [rest [Hp _]].
    cbv zeta in Hp.
    assert (H' : In (r, m) (Score.fallback
                   (Score.build_import_graph (Score.iter_source_files entries exts))
                   (Score.score_all
                      (Score.build_import_graph (Score.iter_source_files entries exts))
                      churn (Score.iter_source_files entries exts)))).
    { apply (Permutation_in _ Hp). apply in_or_app; left; exact H. }
    apply ScoreFacts.in_fallback in H' as [H'|[_ [z [Hz Hr]]]].
    + unfold Score.score_all in H'. apply in_map_iff in H' as [q [Hq1 Hq2]].
      apply Hiff in Hq2. change m with (snd (r, m)). rewrite <- Hq1.
      unfold Score.score_one. cbn [snd Score.m_bytes]. tauto.
    + unfold Score.score_all in Hz. apply in_map_iff in Hz as [q [Hq1 Hq2]].
      apply Hiff in Hq2. injection Hr as _ Hm. subst m z.
      unfold Score.flag_entry, Score.score_one. cbn [snd Score.m_bytes]. tauto.
  - unfold Scan._read_text_capped.
    destruct (Nat.ltb Scan.MAX_KEY_FILE_BYTES (length data)) eqn:E; [reflexivity|].
    apply Nat.ltb_ge in E. symmetry. apply firstn_all2. exact E.
Qed.

(** ** C6: dangling edges in the layout step *)

(** Claim C6 (counterexample).  An edge to an unknown node is not
    rejected: [main] goes on, leaves the edge out of the graph it lays out,
    and writes it out unchanged. *)
Lemma dangling_edge_accepted :
  Layout.main_graph Fixtures.dangling
  = Layout.Ok ({| Layout.nx_nodes := ["a"]; Layout.nx_edges := [] |},
               Layout.g_edges Fixtures.dangling).
Proof.
  vm_compute. reflexivity.
Qed.

(** Claim C6 (amended).  The layout step raises only when a node has no
    ["id"]; otherwise it returns, the graph it lays out has the given node
    ids and only edges whose two ends are among them (dangling edges are
    dropped from the layout), and the output edge list is the input one,
    dangling edges included. *)
Theorem main_graph_keeps_dangling_edges (data : Layout.GraphJson) :
  match Layout.main_graph data with
  | Layout.KeyError => Exists (fun n => Layout.nj_id n = None) (Layout.g_nodes data)
  | Layout.Ok (g, out_edges) =>
      out_edges = Layout.g_edges data
      /\ Forall (fun n => Layout.nj_id n <> None) (Layout.g_nodes data)
      /\ (forall i, In i (Layout.nx_nodes g)
                    <-> In (Some i) (map Layout.nj_id (Layout.g_nodes data)))
      /\ LayoutFacts.edges_ok g
  end.
Proof.
  unfold Layout.main_graph.
  destruct (Layout.node_ids (Layout.g_nodes data)) as [ids|] eqn:E.
  - change (fun g e => if Layout.nx_has_node g (Layout.ej_source e)
                          && Layout.nx_has_node g (Layout.ej_target e)
                       then match Layout.ej_source e, Layout.ej_target e with
                            | Some s, Some t => Layout.add_edge g s t
                            | _, _ => g
                            end
                       else g) with LayoutFacts.edge_step.
    pose proof (LayoutFacts.node_ids_Ok _ _ E) as Hm.
    destruct (LayoutFacts.add_nodes_from_spec
                {| Layout.nx_nodes := []; Layout.nx_edges := [] |} ids) as [He Hi].
    set (g1 := Layout.add_nodes_from _ ids) in *.
    destruct (LayoutFacts.edge_fold_spec (Layout.g_edges data) g1) as [Hn Hok].
    split; [reflexivity|]. split; [|split].
    + apply Forall_forall. intros n Hn' Hnone.
      apply (in_map Layout.nj_id) in Hn'. rewrite Hm, Hnone in Hn'.
      apply in_map_iff in Hn' as [? [? _]]. discriminate.
    + intro i. rewrite Hn, Hi, Hm. simpl. split.
      * intros [[]|H]. apply in_map; exact H.
      * intro H. right. apply in_map_iff in H as [j [Ej Hj]].
        injection Ej as ->. exact Hj.
    + apply Hok. intros s t H. rewrite He in H. destruct H.
  - apply LayoutFacts.node_ids_KeyError. exact E.
Qed.

(** ** C7: de-overlap monotonicity *)



(* ================================================================== *)
(** * Further properties of the code *)


(** Extra X1.  [score_files] returns a prefix of the scored rows (after the
    entry-point fallback) in decreasing order of
    [(score, runtime_signal, imported_by_count, -bytes)]: the output
    followed by the rows cut off is a permutation of the scored rows and
    is sorted in that order. *)
Theorem score_files_ranked (entries : list Score.Entry) (churn : list string)
  (top_n : Z) (exts : list string) :
  let files := Score.iter_source_files entries exts in
  let ibc := Score.build_import_graph files in
  exists rest,
    Permutation (Score.score_files entries churn top_n exts ++ rest)
                (Score.fallback ibc (Score.score_all ibc churn files))
    /\ StronglySorted ExtraSpec.ranks_before (Score.score_files entries churn top_n exts ++ rest).
Proof. apply SortFacts.score_files_prefix. Qed.

(** Extra X2.  [score_files] returns [min(top_n, k)] rows for [top_n >= 0] and
    [max(0, k + top_n)] rows for a negative [top_n], [k] being the number
    of source files: the slice [scored[:top_n]]. *)
Theorem score_files_length (entries : list Score.Entry) (churn : list string)
  (top_n : Z) (exts : list string) :
  let k := Z.of_nat (length (Score.iter_source_files entries exts)) in
  Z.of_nat (length (Score.score_files entries churn top_n exts))
  = if 0 <=? top_n then Z.min top_n k else Z.max 0 (k + top_n).
Proof.
  intro k. unfold Score.score_files. subst k.
  destruct (Score.iter_source_files entries exts) as [|f fs] eqn:Ef.
  - simpl. destruct (0 <=? top_n) eqn:E; [apply Z.leb_le in E|apply Z.leb_gt in E]; lia.
  - rewrite SortFacts.py_take_length.
    rewrite (Permutation_length (SortFacts.sort_desc_perm _)).
    assert (L : forall l, length (Score.fallback (Score.build_import_graph (f :: fs)) l) = length l).
    { intro l. rewrite <- (length_map fst), SortFacts.fallback_keys, length_map. reflexivity. }
    rewrite L. unfold Score.score_all. rewrite length_map. reflexivity.
Qed.

(** Extra X3.  When the scanned files have pairwise distinct relative paths, the
    rows of [score_files] have distinct paths, and each row is the row
    [score_one] computes for a scanned file, or that row with the
    entry-point fallback applied. *)
Theorem score_files_rows (entries : list Score.Entry) (churn : list string)
  (top_n : Z) (exts : list string) :
  NoDup (map Spec.relp (Score.iter_source_files entries exts)) ->
  NoDup (map fst (Score.score_files entries churn top_n exts))
  /\ forall r m, In (r, m) (Score.score_files entries churn top_n exts) ->
     exists p, In p (Score.iter_source_files entries exts) /\ r = Spec.relp p
       /\ let m0 := snd (Score.score_one
                          (Score.build_import_graph (Score.iter_source_files entries exts))
                          churn p) in
          (m = m0 \/ m = Score.flag_entry m0).
Proof.
  intro Hn.
  set (files := Score.iter_source_files entries exts) in *.
  set (ibc := Score.build_import_graph files).
  assert (Hk : map fst (Score.fallback ibc (Score.score_all ibc churn files)) = map Spec.relp files).
  { rewrite SortFacts.fallback_keys. unfold Score.score_all. rewrite map_map.
    apply map_ext. intro p. apply FallbackFacts.score_one_fst. }
  destruct (SortFacts.score_files_prefix entries churn top_n exts) as [rest [Hp _]].
  fold files ibc in Hp.
  split.
  - apply (NoDup_app_remove_r _ (map fst rest)). rewrite <- map_app.
    apply (Permutation_NoDup (Permutation_map fst (Permutation_sym Hp))).
    rewrite Hk. exact Hn.
  - intros r m H.
    assert (H' : In (r, m) (Score.fallback ibc (Score.score_all ibc churn files))).
    { apply (Permutation_in _ Hp). apply in_or_app; left; exact H. }
    apply ScoreFacts.in_fallback in H' as [H'|[_ [z [Hz Hr]]]].
    + unfold Score.score_all in H'. apply in_map_iff in H' as [p [Hp1 Hp2]].
      exists p. split; [exact Hp2|].
      pose proof (FallbackFacts.score_one_fst ibc churn p) as Hf.
      rewrite Hp1 in Hf. split; [exact Hf|].
      left. change (m = snd (Score.score_one ibc churn p)). rewrite Hp1. reflexivity.
    + unfold Score.score_all in Hz. apply in_map_iff in Hz as [p [Hp1 Hp2]].
      exists p. split; [exact Hp2|]. subst z. injection Hr as -> ->.
      split; [reflexivity|]. right. reflexivity.
Qed.

Lemma score_files_rows_witness :
  NoDup (map Spec.relp (Score.iter_source_files Fixtures.trio_entries Score.DEFAULT_EXTS))
  /\ NoDup (map fst (Score.score_files Fixtures.trio_entries [] 3 Score.DEFAULT_EXTS)).
Proof.
  assert (Hn : NoDup (map Spec.relp (Score.iter_source_files Fixtures.trio_entries Score.DEFAULT_EXTS))).
  { vm_compute. repeat constructor; simpl; intuition discriminate. }
  split; [exact Hn|].
  exact (proj1 (score_files_rows Fixtures.trio_entries [] 3 Score.DEFAULT_EXTS Hn)).
Defined.

Module ResolveFacts.
Import Scan.
Local Open Scope list_scope.

Lemma imported_keys_unrecognised p :
  ExtraSpec.import_suffix_ok p = false -> Score.imported_keys p = [].
Proof.
  unfold ExtraSpec.import_suffix_ok, Score.imported_keys. intro H.
  apply orb_false_iff in H as [H1 H2]. rewrite H1, H2. reflexivity.
Qed.

Lemma importers_filter files k :
  Spec.importers files k = Spec.importers (filter ExtraSpec.import_suffix_ok files) k.
Proof.
  unfold Spec.importers. induction files as [|p files IH]; simpl; [reflexivity|].
  destruct (ExtraSpec.import_suffix_ok p) eqn:E; simpl.
  - destruct (Py.mem k (Score.imported_keys p)); simpl; rewrite IH; reflexivity.
  - rewrite imported_keys_unrecognised by exact E. simpl. exact IH.
Qed.

Lemma split_on_no_dot s : ExtraSpec.no_dot s = true -> Py.split_on "." s = [s].
Proof.
  induction s as [|c s IH]; cbn [Py.split_on]; [reflexivity|].
  intro H. cbn [ExtraSpec.no_dot list_ascii_of_string forallb] in H.
  apply andb_true_iff in H as [Hc Hs]. apply negb_true_iff in Hc.
  rewrite Ascii.eqb_sym, Hc, IH by exact Hs. reflexivity.
Qed.

Lemma count_leading_dots_no_dot s : ExtraSpec.no_dot s = true -> count_leading_dots s = O.
Proof.
  destruct s as [|c s]; cbn [count_leading_dots]; [reflexivity|].
  intro H. cbn [ExtraSpec.no_dot list_ascii_of_string forallb] in H. apply andb_true_iff in H as [Hc _]. apply negb_true_iff in Hc.
  rewrite Hc. reflexivity.
Qed.

Lemma substring_all s : substring 0 (String.length s) s = s.
Proof. induction s as [|c s IH]; simpl; [reflexivity|]. rewrite IH; reflexivity. Qed.

Lemma append_to_last_snoc d x s : append_to_last (d ++ [x]) s = d ++ [(x ++ s)%string].
Proof.
  unfold append_to_last. rewrite rev_app_distr. simpl. rewrite rev_involutive. reflexivity.
Qed.

Lemma parent_snoc d x : parent (d ++ [x]) = d.
Proof. unfold parent. apply removelast_last. Qed.

End ResolveFacts.

(** Extra X5.  For a source file [d/pkg/mod.py] and a module [.name] ([name]
    non-empty, without dots), [_resolve_py_like] looks for [d/name.py] and
    then [d/name/__init__.py]: one directory above the file's package,
    never [d/pkg/name.py] beside the file. *)
Theorem py_single_dot_skips_package (fs : Scan.FS) (d : path) (pkg md name : string) :
  name <> "" -> ExtraSpec.no_dot name = true ->
  Scan._resolve_py_like fs (String "." name) (d ++ [pkg; md])%list
  = Scan.first_existing fs [(d ++ [(name ++ ".py")%string])%list; (d ++ [name; "__init__.py"])%list].
Proof.
  intros Hne Hnd. unfold Scan._resolve_py_like.
  assert (Hs : Py.startswith "." (String "." name) = true) by (unfold Py.startswith; simpl; destruct name; reflexivity).
  rewrite Hs. cbn [negb].
  change (Scan.count_leading_dots (String "." name)) with (S (Scan.count_leading_dots name)).
  rewrite ResolveFacts.count_leading_dots_no_dot by exact Hnd.
  replace (String.length (String "." name) - 1)%nat with (String.length name) by (simpl; lia).
  change (substring 1 (String.length name) (String "." name))
    with (substring 0 (String.length name) name).
  rewrite ResolveFacts.substring_all.
  destruct (String.eqb name "") eqn:E; [apply String.eqb_eq in E; contradiction|].
  rewrite ResolveFacts.split_on_no_dot by exact Hnd. simpl filter. rewrite E. simpl negb.
  cbn iota.
  replace (d ++ [pkg; md])%list with ((d ++ [pkg]) ++ [md])%list by (rewrite <- app_assoc; reflexivity).
  simpl Nat.iter. rewrite !ResolveFacts.parent_snoc.
  rewrite ResolveFacts.append_to_last_snoc, <- app_assoc. reflexivity.
Qed.

Lemma py_single_dot_skips_package_witness :
  ("foo" <> "" /\ ExtraSpec.no_dot "foo" = true)
  /\ Scan._resolve_py_like ExtraFixtures.sibling_fs ".foo" ["r"; "pkg"; "mod.py"]
     = Scan.first_existing ExtraFixtures.sibling_fs [["r"; "foo.py"]; ["r"; "foo"; "__init__.py"]]
  /\ Scan._resolve_py_like ExtraFixtures.sibling_fs ".foo" ["r"; "pkg"; "mod.py"] = None.
Proof.
  assert (H1 : "foo" <> "") by discriminate.
  assert (H2 : ExtraSpec.no_dot "foo" = true) by reflexivity.
  split; [split; assumption|]. split.
  - exact (py_single_dot_skips_package ExtraFixtures.sibling_fs ["r"] "pkg" "mod.py" "foo" H1 H2).
  - vm_compute. reflexivity.
Defined.

(** Extra X6.  A path returned by [_resolve_js_like] exists, the specifier starts
    with a dot, and the path is the joined target itself (only when that
    has a suffix), the target with one of the tried extensions appended,
    or an index file inside the target when the target is a directory. *)
Theorem js_resolution_exists (fs : Scan.FS) (spec : string) (src c : path) :
  Scan._resolve_js_like fs spec src = Some c ->
  let base := Scan.resolve (Scan.join_spec (Scan.parent src) spec) in
  Py.startswith "." spec = true /\ Scan.exists_ fs c = true
  /\ ((c = base /\ path_suffix base <> "")
      \/ (exists ext, In ext Scan.JS_TS_FILE_EXTS_TRY /\ c = Scan.append_to_last base ext)
      \/ (Scan.is_dir fs base = true
          /\ exists nm, In nm Scan.JS_TS_INDEX_CANDIDATES /\ c = (base ++ [nm])%list)).
Proof.
  assert (FE : forall fs cands c, Scan.first_existing fs cands = Some c ->
                 In c cands /\ Scan.exists_ fs c = true).
  { induction cands as [|x cands IH]; simpl; intros c0 H; [discriminate|].
    destruct (Scan.exists_ fs0 x) eqn:E.
    - injection H as <-. auto.
    - destruct (IH _ H); auto. }
  unfold Scan._resolve_js_like. intro H. cbv zeta.
  destruct (Py.startswith "." spec) eqn:Es; cbn [negb] in H; [|discriminate].
  set (base := Scan.resolve (Scan.join_spec (Scan.parent src) spec)) in *.
  split; [reflexivity|]. revert H.
  destruct (negb (String.eqb (path_suffix base) "") && Scan.exists_ fs base) eqn:E1; intro H.
  - injection H as <-. apply andb_true_iff in E1 as [E1 E2].
    split; [exact E2|]. left. split; [reflexivity|].
    apply negb_true_iff, String.eqb_neq in E1. exact E1.
  - revert H.
    destruct (Scan.first_existing fs (map (Scan.append_to_last base) Scan.JS_TS_FILE_EXTS_TRY)) as [c'|] eqn:E2; intro H.
    + injection H as <-. apply FE in E2 as [Hin Hex]. split; [exact Hex|].
      right; left. apply in_map_iff in Hin as [ext [<- Hext]]. eauto.
    + revert H. destruct (Scan.exists_ fs base && Scan.is_dir fs base) eqn:E3; intro H; [|discriminate].
      apply FE in H as [Hin Hex]. split; [exact Hex|]. right; right.
      apply andb_true_iff in E3 as [_ E3]. split; [exact E3|].
      apply in_map_iff in Hin as [nm [<- Hnm]]. eauto.
Qed.

(** Extra X4.  The stored import counts only see imports of files whose suffix is
    exactly [.py], [.js], [.jsx], [.ts] or [.tsx]: a file the scan admits
    through its lower-cased suffix (such as [A.PY]) is never counted as an
    importer. *)
Theorem import_count_needs_exact_suffix (files : list Score.Entry) (p : Score.Entry) :
  NoDup (map Spec.relp files) -> In p files ->
  Score.get_or (Spec.relp p) (Score.build_import_graph files) 0
  = Z.of_nat (Spec.importers (filter ExtraSpec.import_suffix_ok files) (path_stem (Score.e_rel p))).
Proof.
  intros Hn Hp. rewrite <- ResolveFacts.importers_filter.
  apply CountFacts.build_import_graph_value; assumption.
Qed.

Lemma import_count_needs_exact_suffix_witness :
  let files := Score.iter_source_files ExtraFixtures.upper_entries Score.DEFAULT_EXTS in
  let b := Fixtures.src ["b.py"] empty_text 10 in
  (NoDup (map Spec.relp files) /\ In b files)
  /\ Score.get_or (Spec.relp b) (Score.build_import_graph files) 0
     = Z.of_nat (Spec.importers (filter ExtraSpec.import_suffix_ok files) (path_stem (Score.e_rel b)))
  /\ files = ExtraFixtures.upper_entries
  /\ Score.get_or (Spec.relp b) (Score.build_import_graph files) 0 = 0.
Proof.
  intros files b.
  assert (Hn : NoDup (map Spec.relp files)).
  { vm_compute. repeat constructor; simpl; intuition discriminate. }
  assert (Hb : In b files) by (vm_compute; right; left; reflexivity).
  split; [split; assumption|]. split.
  - exact (import_count_needs_exact_suffix files b Hn Hb).
  - split; vm_compute; reflexivity.
Defined.

Lemma js_resolution_exists_witness :
  Scan._resolve_js_like ExtraFixtures.js_fs "./b" ["r"; "a.js"] = Some ["r"; "b.ts"]
  /\ Scan.exists_ ExtraFixtures.js_fs ["r"; "b.ts"] = true.
Proof.
  assert (H : Scan._resolve_js_like ExtraFixtures.js_fs "./b" ["r"; "a.js"] = Some ["r"; "b.ts"])
    by (vm_compute; reflexivity).
  split; [exact H|].
  exact (proj1 (proj2 (js_resolution_exists ExtraFixtures.js_fs "./b" ["r"; "a.js"] ["r"; "b.ts"] H))).
Defined.

(** Extra X8.  [_detect_ecosystem]: the primary ecosystem is node, python, go or
    rust, in this order of precedence, or none; it never appears among the
    secondaries; secondaries and frameworks have no repetition; docker is
    a secondary exactly when a Dockerfile exists; frameworks come only with
    a package.json. *)
Theorem detect_ecosystem_shape (ex : string -> bool) (pkg_deps : option (list string)) :
  let e := ScanRepo._detect_ecosystem ex pkg_deps in
  ScanRepo.primary e
    = (if ex "package.json" then Some "node"
       else if ex "pyproject.toml" || ex "requirements.txt" || ex "setup.py" then Some "python"
       else if ex "go.mod" then Some "go"
       else if ex "Cargo.toml" then Some "rust"
       else None)
  /\ (forall p, ScanRepo.primary e = Some p -> ~ In p (ScanRepo.secondaries e))
  /\ NoDup (ScanRepo.secondaries e) /\ NoDup (ScanRepo.frameworks e)
  /\ (In "docker" (ScanRepo.secondaries e) <-> ex "Dockerfile" = true)
  /\ (ScanRepo.frameworks e <> [] -> ex "package.json" = true).
Proof.
  intro e. subst e. unfold ScanRepo._detect_ecosystem.
  destruct (ex "package.json"), (ex "pyproject.toml"), (ex "requirements.txt"),
    (ex "setup.py"), (ex "go.mod"), (ex "Cargo.toml"), (ex "Dockerfile");
  cbn -[Spec.uniq_aux];
  (split; [reflexivity|]);
  (split; [intros p Hp; first [discriminate Hp
           | injection Hp as <-; rewrite DictFacts.uniq_aux_In; simpl; intuition discriminate]|]);
  (split; [apply DictFacts.uniq_aux_NoDup, NoDup_nil|]);
  (split; [apply DictFacts.uniq_aux_NoDup, NoDup_nil|]);
  (split; [rewrite DictFacts.uniq_aux_In; simpl; intuition discriminate|]);
  try (intros _; reflexivity); try (intro H; exfalso; apply H; reflexivity).
Qed.

Module KeyFacts.
Import Score ScanRepo.
Local Open Scope list_scope.

Definition expected (rp : Repo) (f : path) : KeyContent :=
  if Py.mem (path_name f) REDACT_LOCKFILE_NAMES then KRedacted (path_name f)
  else KText (Scan._read_text_capped (r_bytes rp f) Scan.MAX_KEY_FILE_BYTES).

Definition entry_ok (rp : Repo) (kv : string * (string * KeyContent)) : Prop :=
  fst (snd kv) = fst kv /\
  exists f, In f (r_files rp) /\ as_posix f = fst kv /\ snd (snd kv) = expected rp f.

Lemma in_dict_set {A} k v k' (v' : A) d :
  In (k, v) (dict_set k' v' d) -> (k = k' /\ v = v') \/ In (k, v) d.
Proof.
  induction d as [|[k0 v0] d IH]; simpl.
  - intros [H|[]]. injection H as -> ->. auto.
  - destruct (String.eqb k' k0) eqn:E; simpl.
    + apply String.eqb_eq in E; subst. intros [H|H]; [injection H as -> ->|]; auto.
    + intros [H|H]; [auto|]. destruct (IH H); auto.
Qed.

Lemma path_inb_In p l : path_inb p l = true -> In p l.
Proof.
  unfold path_inb, Scan.path_in. intro H. apply existsb_exists in H as [q [Hq E]].
  unfold Scan.path_eqb in E. destruct (list_eq_dec string_dec p q); [subst; exact Hq|discriminate].
Qed.

Lemma key_value_ok rp f :
  In f (r_files rp) -> entry_ok rp (as_posix f, key_value rp f).
Proof.
  intro Hf. unfold entry_ok. split.
  - unfold key_value. destruct (Py.mem (path_name f) REDACT_LOCKFILE_NAMES); reflexivity.
  - exists f. split; [exact Hf|]. split.
    + unfold key_value. destruct (Py.mem (path_name f) REDACT_LOCKFILE_NAMES); reflexivity.
    + unfold key_value, expected, read_capped.
      destruct (Py.mem (path_name f) REDACT_LOCKFILE_NAMES); reflexivity.
Qed.

Lemma dict_set_ok rp f (d : KeyDict) :
  In f (r_files rp) -> Forall (entry_ok rp) d ->
  Forall (entry_ok rp) (dict_set (as_posix f) (key_value rp f) d).
Proof.
  intros Hf Hd. apply Forall_forall. intros [k v] H.
  destruct (in_dict_set _ _ _ _ _ H) as [[-> ->]|H'].
  - apply key_value_ok, Hf.
  - rewrite Forall_forall in Hd. apply Hd, H'.
Qed.

Lemma dict_set_NoDup {A} k (v : A) d :
  NoDup (map fst d) -> NoDup (map fst (dict_set k v d)).
Proof.
  intro H. rewrite DictFacts.keys_dict_set.
  destruct (Py.mem k (map fst d)) eqn:E; [exact H|].
  apply NoDup_app; auto using NoDup_cons, NoDup_nil.
  intros z Hz [<-|[]]. apply DictFacts.mem_In in Hz. congruence.
Qed.

Lemma glob_loop_ok rp fs count d :
  (forall f, In f fs -> In f (r_files rp)) ->
  Forall (entry_ok rp) d /\ NoDup (map fst d) ->
  Forall (entry_ok rp) (glob_loop rp fs count d) /\ NoDup (map fst (glob_loop rp fs count d)).
Proof.
  revert count d; induction fs as [|f fs IH]; intros count d Hfs [Hd Hn]; cbn [glob_loop]; [auto|].
  assert (Hf : In f (r_files rp)) by (apply Hfs; simpl; auto).
  assert (Hfs' : forall g, In g fs -> In g (r_files rp)) by (intros g Hg; apply Hfs; simpl; auto).
  destruct (negb (r_binary rp f)).
  - assert (H1 : Forall (entry_ok rp) (dict_set (as_posix f) (key_value rp f) d)
                 /\ NoDup (map fst (dict_set (as_posix f) (key_value rp f) d)))
      by (split; [apply dict_set_ok|apply dict_set_NoDup]; assumption).
    destruct (Nat.leb 3 (S count)); [exact H1|]. apply IH; assumption.
  - apply IH; auto.
Qed.

Lemma key_path_step_ok rp d pat :
  Forall (entry_ok rp) d /\ NoDup (map fst d) ->
  Forall (entry_ok rp) (key_path_step rp d pat) /\ NoDup (map fst (key_path_step rp d pat)).
Proof.
  intro H. unfold key_path_step.
  destruct (Py.endswith "/" pat || path_inb (pat_path pat) (r_dirs rp)).
  - destruct (path_inb (pat_path pat) (r_dirs rp)); [|exact H].
    apply glob_loop_ok; [|exact H].
    intros f Hf. apply filter_In in Hf as [Hf _]. exact Hf.
  - destruct (path_inb (pat_path pat) (r_files rp)) eqn:E; simpl; [|exact H].
    destruct (negb (r_binary rp (pat_path pat))); [|exact H].
    destruct H as [Hd Hn].
    split; [apply dict_set_ok|apply dict_set_NoDup]; auto using path_inb_In.
Qed.

Lemma dict_get_In_key {A} k (d : list (string * A)) : dict_get k d <> None <-> In k (map fst d).
Proof.
  induction d as [|[k0 v0] d IH]; simpl; [split; [congruence|intros []]|].
  destruct (String.eqb k k0) eqn:E.
  - apply String.eqb_eq in E. subst. split; [auto|discriminate].
  - apply String.eqb_neq in E. rewrite IH. split; [auto|]. intros [H|H]; [congruence|exact H].
Qed.

Lemma setdefault_keys {A} k (v : A) d :
  map fst (setdefault k v d) = if Py.mem k (map fst d) then map fst d else map fst d ++ [k].
Proof.
  unfold setdefault. destruct (dict_get k d) eqn:E.
  - assert (H : Py.mem k (map fst d) = true).
    { apply DictFacts.mem_In, dict_get_In_key. rewrite E; discriminate. }
    rewrite H. reflexivity.
  - apply DictFacts.keys_dict_set.
Qed.

Lemma in_setdefault {A} k v k' (v' : A) d :
  In (k, v) (setdefault k' v' d) -> (k = k' /\ v = v') \/ In (k, v) d.
Proof.
  unfold setdefault. destruct (dict_get k' d); [auto|]. apply in_dict_set.
Qed.

Lemma dict_get_setdefault {A} k k' (v : A) d :
  dict_get k (setdefault k' v d) <> None <-> dict_get k d <> None \/ k = k'.
Proof.
  unfold setdefault. destruct (dict_get k' d) eqn:E.
  - split; [auto|]. intros [H| ->]; [exact H|]. rewrite E; discriminate.
  - rewrite CountFacts.dict_get_set. destruct (String.eqb k k') eqn:E2.
    + apply String.eqb_eq in E2. split; [auto|discriminate].
    + apply String.eqb_neq in E2. split; [auto|]. intros [H|H]; [exact H|contradiction].
Qed.

Lemma capped_length data m : (length (Scan._read_text_capped data m) <= m)%nat \/ Scan._read_text_capped data m = data /\ (length data <= m)%nat.
Proof.
  unfold Scan._read_text_capped. destruct (Nat.ltb m (length data)) eqn:E.
  - left. rewrite length_firstn. lia.
  - right. apply Nat.ltb_ge in E. auto.
Qed.

End KeyFacts.

(** Extra X9.  [_collect_key_files]: keys are distinct; every entry's [path] is its
    key, the POSIX path of an existing file; its content is the redaction
    placeholder for a lockfile name and otherwise the file's bytes capped
    at [MAX_KEY_FILE_BYTES]; every lockfile at the root has an entry. *)
Theorem collect_key_files_entries (rp : ScanRepo.Repo) :
  let out := ScanRepo._collect_key_files rp in
  NoDup (map fst out)
  /\ (forall rel p c, In (rel, (p, c)) out ->
        p = rel
        /\ exists f, In f (ScanRepo.r_files rp) /\ as_posix f = rel
           /\ c = (if Py.mem (path_name f) ScanRepo.REDACT_LOCKFILE_NAMES
                   then ScanRepo.KRedacted (path_name f)
                   else ScanRepo.KText (Scan._read_text_capped (ScanRepo.r_bytes rp f)
                                          Scan.MAX_KEY_FILE_BYTES)))
  /\ (forall rel p b, In (rel, (p, ScanRepo.KText b)) out -> (length b <= Scan.MAX_KEY_FILE_BYTES)%nat)
  /\ (forall name, In name ScanRepo.REDACT_LOCKFILE_NAMES ->
        In [name] (ScanRepo.r_files rp) -> In name (map fst out)).
Proof.
  intro out.
  assert (Inv : forall l d, Forall (KeyFacts.entry_ok rp) d /\ NoDup (map fst d) ->
            Forall (KeyFacts.entry_ok rp) (fold_left (ScanRepo.key_path_step rp) l d)
            /\ NoDup (map fst (fold_left (ScanRepo.key_path_step rp) l d))).
  { induction l as [|pat l IH]; intros d H; simpl; [exact H|].
    apply IH, KeyFacts.key_path_step_ok, H. }
  set (lock_step := fun out name =>
         if ScanRepo.path_inb [name] (ScanRepo.r_files rp)
         then ScanRepo.setdefault (as_posix [name]) (as_posix [name], ScanRepo.KRedacted name) out
         else out).
  assert (Inv2 : forall l d, incl l ScanRepo.REDACT_LOCKFILE_NAMES ->
            Forall (KeyFacts.entry_ok rp) d /\ NoDup (map fst d) ->
            Forall (KeyFacts.entry_ok rp) (fold_left lock_step l d)
            /\ NoDup (map fst (fold_left lock_step l d))).
  { induction l as [|name l IH]; intros d Hl [Hd Hn]; simpl; [auto|].
    apply IH; [intros x Hx; apply Hl; simpl; auto|].
    unfold lock_step. destruct (ScanRepo.path_inb [name] (ScanRepo.r_files rp)) eqn:E; [|auto].
    split.
    - apply Forall_forall. intros [k v] Hkv.
      destruct (KeyFacts.in_setdefault _ _ _ _ _ Hkv) as [[-> ->]|H'].
      + split; [reflexivity|]. exists [name].
        split; [apply KeyFacts.path_inb_In, E|]. split; [reflexivity|].
        unfold KeyFacts.expected. cbn [snd].
        assert (Hm : Py.mem (path_name [name]) ScanRepo.REDACT_LOCKFILE_NAMES = true).
        { apply DictFacts.mem_In. apply Hl. simpl; auto. }
        rewrite Hm. reflexivity.
      + rewrite Forall_forall in Hd. apply Hd, H'.
    - rewrite KeyFacts.setdefault_keys.
      destruct (Py.mem (as_posix [name]) (map fst d)) eqn:Em; [exact Hn|].
      apply NoDup_app; auto using NoDup_cons, NoDup_nil.
      intros z Hz [<-|[]]. apply DictFacts.mem_In in Hz. congruence. }
  assert (Pres : forall l d k, In k (map fst d) \/ (In k l /\ In [k] (ScanRepo.r_files rp)) ->
            In k (map fst (fold_left lock_step l d))).
  { induction l as [|name l IH]; intros d k H; simpl.
    - destruct H as [H|[[] _]]; exact H.
    - apply IH. unfold lock_step.
      destruct H as [H|[[Ek|Hk] Hf]]; [| subst name |].
      + left. destruct (ScanRepo.path_inb _ _); [|exact H].
        rewrite KeyFacts.setdefault_keys. destruct (Py.mem _ _); [exact H|].
        apply in_or_app; left; exact H.
      + left. assert (E : ScanRepo.path_inb [k] (ScanRepo.r_files rp) = true).
        { unfold ScanRepo.path_inb, Scan.path_in. apply existsb_exists.
          exists [k]. split; [exact Hf|]. unfold Scan.path_eqb.
          destruct (list_eq_dec string_dec [k] [k]); [reflexivity|contradiction]. }
        rewrite E, KeyFacts.setdefault_keys. change (as_posix [k]) with k.
        destruct (Py.mem k (map fst d)) eqn:Em.
        * apply DictFacts.mem_In, Em.
        * apply in_or_app; right; simpl; auto.
      + right. auto. }
  assert (Hall : Forall (KeyFacts.entry_ok rp) out /\ NoDup (map fst out)).
  { unfold out, ScanRepo._collect_key_files. fold lock_step.
    apply Inv2; [intros x Hx; exact Hx|]. apply Inv. split; constructor. }
  destruct Hall as [Hok Hn].
  rewrite Forall_forall in Hok.
  split; [exact Hn|]. split; [|split].
  - intros rel p c H. destruct (Hok _ H) as [Hp [f [Hf [Hr Hc]]]].
    split; [exact Hp|]. exists f. split; [exact Hf|]. split; [exact Hr|]. exact Hc.
  - intros rel p b H. destruct (Hok _ H) as [_ [f [_ [_ Hc]]]].
    cbn [snd] in Hc. unfold KeyFacts.expected in Hc.
    destruct (Py.mem _ _) in Hc; [discriminate|]. injection Hc as ->.
    destruct (KeyFacts.capped_length (ScanRepo.r_bytes rp f) Scan.MAX_KEY_FILE_BYTES) as [H1|[H1 H2]].
    + exact H1.
    + rewrite H1. exact H2.
  - intros name Hname Hf. unfold out, ScanRepo._collect_key_files. fold lock_step.
    apply Pres. right. auto.
Qed.

Module RealFacts.
Import LayoutMain.
Local Open Scope R_scope.

Lemma ratio_01 a b v : a < b -> a <= v <= b -> 0 <= (v - a) / (b - a) <= 1.
Proof.
  intros Hab Hv. assert (Hp : 0 < / (b - a)) by (apply Rinv_0_lt_compat; lra).
  unfold Rdiv. split.
  - apply Rmult_le_pos; lra.
  - replace 1 with ((b - a) * / (b - a)) by (field; lra).
    apply Rmult_le_compat_r; lra.
Qed.

Lemma fold_Rmin_le r a : fold_left Rmin r a <= a /\ forall x, In x r -> fold_left Rmin r a <= x.
Proof.
  revert a; induction r as [|y r IH]; intro a; simpl.
  - split; [lra|intros _ []].
  - destruct (IH (Rmin a y)) as [H1 H2]. split.
    + pose proof (Rmin_l a y). lra.
    + intros x [<-|Hx]; [pose proof (Rmin_r a y); lra|auto].
Qed.

Lemma fold_Rmax_ge r a : a <= fold_left Rmax r a /\ forall x, In x r -> x <= fold_left Rmax r a.
Proof.
  revert a; induction r as [|y r IH]; intro a; simpl.
  - split; [lra|intros _ []].
  - destruct (IH (Rmax a y)) as [H1 H2]. split.
    + pose proof (Rmax_l a y). lra.
    + intros x [<-|Hx]; [pose proof (Rmax_r a y); lra|auto].
Qed.

Lemma py_min_le xs x : In x xs -> py_min xs <= x.
Proof.
  destruct xs as [|a r]; simpl; [intros []|].
  destruct (fold_Rmin_le r a) as [H1 H2]. intros [<-|H]; auto.
Qed.

Lemma py_max_ge xs x : In x xs -> x <= py_max xs.
Proof.
  destruct xs as [|a r]; simpl; [intros []|].
  destruct (fold_Rmax_ge r a) as [H1 H2]. intros [<-|H]; auto.
Qed.

Lemma xs_of_In d k p : In (k, p) d -> In (fst p) (xs_of d).
Proof.
  unfold xs_of. intro H. destruct (map _ d) eqn:E.
  - destruct d; [destruct H|discriminate].
  - rewrite <- E. apply (in_map (fun kv => fst (snd kv))) in H. exact H.
Qed.

Lemma ys_of_In d k p : In (k, p) d -> In (snd p) (ys_of d).
Proof.
  unfold ys_of. intro H. destruct (map _ d) eqn:E.
  - destruct d; [destruct H|discriminate].
  - rewrite <- E. apply (in_map (fun kv => snd (snd kv))) in H. exact H.
Qed.

Lemma dict_get_In {A} k (d : list (string * A)) v : Score.dict_get k d = Some v -> In (k, v) d.
Proof.
  induction d as [|[k0 v0] d IH]; simpl; [discriminate|].
  destruct (String.eqb k k0) eqn:E.
  - apply String.eqb_eq in E; subst. intro H; injection H as ->. auto.
  - auto.
Qed.

End RealFacts.

(** Extra X10.  [adaptive_params]: [k > 0], [spread >= 1.6], [min_d >= 80], and
    [224 <= iters <= 800], with the cap [iters = 800] reached exactly from
    [n = 145] on. *)
Theorem adaptive_params_bounds (n0 : Z) :
  let '(k, spread, min_d, iters) := LayoutMain.adaptive_params n0 in
  (0 < k)%R /\ (1.6 <= spread)%R /\ (80 <= min_d)%R
  /\ 224 <= iters <= 800 /\ (iters = 800 <-> 145 <= n0).
Proof.
  unfold LayoutMain.adaptive_params.
  set (n := Z.max 1 n0).
  assert (Hn : 1 <= n) by lia.
  set (lg := Rmax 0 (ln (IZR n) / ln 10)).
  assert (Hlg : (0 <= lg)%R) by apply Rmax_l.
  assert (Hs : (0 < R_sqrt.sqrt (IZR n))%R).
  { apply sqrt_lt_R0. apply IZR_lt. lia. }
  split; [|split; [|split; [|split]]].
  - apply Rmult_lt_0_compat; [|lra].
    unfold Rdiv. apply Rmult_lt_0_compat; [lra|]. apply Rinv_0_lt_compat, Hs.
  - lra.
  - lra.
  - lia.
  - subst n. lia.
Qed.

(** Extra X11.  [adaptive_params]: [spread], [min_d] and [iters] never decrease as
    the node count grows. *)
Theorem adaptive_params_monotone (n1 n2 : Z) :
  n1 <= n2 ->
  let '(_, s1, d1, i1) := LayoutMain.adaptive_params n1 in
  let '(_, s2, d2, i2) := LayoutMain.adaptive_params n2 in
  (s1 <= s2)%R /\ (d1 <= d2)%R /\ i1 <= i2.
Proof.
  intro H12. unfold LayoutMain.adaptive_params.
  assert (L : (Rmax 0 (ln (IZR (Z.max 1 n1)) / ln 10) <= Rmax 0 (ln (IZR (Z.max 1 n2)) / ln 10))%R).
  { apply Rle_max_compat_l.
    assert (H10 : (0 < ln 10)%R).
    { rewrite <- ln_1. apply ln_increasing; lra. }
    unfold Rdiv. apply Rmult_le_compat_r; [apply Rlt_le, Rinv_0_lt_compat, H10|].
    assert (Hz : (1 <= Z.max 1 n1 <= Z.max 1 n2)%Z) by lia.
    destruct (Z.eq_dec (Z.max 1 n1) (Z.max 1 n2)) as [E|E]; [rewrite E; lra|].
    apply Rlt_le, ln_increasing; apply IZR_lt; lia. }
  split; [lra|split; [lra|lia]].
Qed.

(** Extra X14.  [normalize_box] keeps the keys of its input, in order, and maps every
    position into the square [[-1/2, 1/2] x [-1/2, 1/2]]. *)
Theorem normalize_box_unit (subpos : list (string * (R * R))) :
  let out := LayoutMain.normalize_box subpos in
  map fst out = Spec.uniq_aux [] (map fst subpos)
  /\ Forall (fun kv => ExtraSpec.in_box (- / 2) (/ 2) (snd kv)) out.
Proof.
  intro out. unfold out, LayoutMain.normalize_box. cbv zeta.
  set (minx := LayoutMain.py_min (LayoutMain.xs_of subpos)).
  set (maxx := LayoutMain.py_max (LayoutMain.xs_of subpos)).
  set (miny := LayoutMain.py_min (LayoutMain.ys_of subpos)).
  set (maxy := LayoutMain.py_max (LayoutMain.ys_of subpos)).
  set (w := Rmax (/ 1000000) (maxx - minx)).
  set (h := Rmax (/ 1000000) (maxy - miny)).
  assert (Unit : forall v lo hi m : R, (lo <= v <= hi)%R -> (hi - lo <= m)%R -> (0 < m)%R ->
            (- / 2 <= (v - lo) / m - 0.5 <= / 2)%R).
  { intros v lo hi m Hv Hm Hm0.
    assert (0 <= (v - lo) / m <= 1)%R.
    { unfold Rdiv. split.
      - apply Rmult_le_pos; [lra|apply Rlt_le, Rinv_0_lt_compat, Hm0].
      - replace 1%R with (m * / m)%R by (field; lra).
        apply Rmult_le_compat_r; [apply Rlt_le, Rinv_0_lt_compat, Hm0|lra]. }
    lra. }
  assert (Hw0 : (0 < w)%R).
  { eapply Rlt_le_trans; [|apply Rmax_l]. apply Rinv_0_lt_compat. lra. }
  assert (Hh0 : (0 < h)%R).
  { eapply Rlt_le_trans; [|apply Rmax_l]. apply Rinv_0_lt_compat. lra. }
  assert (G : forall l d,
            (forall k p, In (k, p) l -> In (k, p) subpos) ->
            Forall (fun kv => ExtraSpec.in_box (- / 2) (/ 2) (snd kv)) d ->
            map fst (fold_left (fun out kv =>
              let '(k, (x, y)) := kv in
              Score.dict_set k ((x - minx) / w - 0.5, (y - miny) / h - 0.5)%R out) l d)
            = Spec.uniq_aux (map fst d) (map fst l)
            /\ Forall (fun kv => ExtraSpec.in_box (- / 2) (/ 2) (snd kv))
                 (fold_left (fun out kv =>
                    let '(k, (x, y)) := kv in
                    Score.dict_set k ((x - minx) / w - 0.5, (y - miny) / h - 0.5)%R out) l d)).
  { induction l as [|[k [x y]] l IH]; intros d Hl Hd; simpl; [auto|].
    set (v := ((x - minx) / w - 0.5, (y - miny) / h - 0.5)%R).
    assert (Hd' : Forall (fun kv => ExtraSpec.in_box (- / 2) (/ 2) (snd kv)) (Score.dict_set k v d)).
    { apply Forall_forall. intros [k' v'] H.
      destruct (KeyFacts.in_dict_set _ _ _ _ _ H) as [[-> ->]|H'].
      + assert (Hin : In (k, (x, y)) subpos) by (apply Hl; simpl; auto).
        pose proof (RealFacts.xs_of_In _ _ _ Hin) as Hx.
        pose proof (RealFacts.ys_of_In _ _ _ Hin) as Hy. simpl in Hx, Hy.
        assert (minx <= x)%R by apply (RealFacts.py_min_le _ _ Hx).
        assert (x <= maxx)%R by apply (RealFacts.py_max_ge _ _ Hx).
        assert (miny <= y)%R by apply (RealFacts.py_min_le _ _ Hy).
        assert (y <= maxy)%R by apply (RealFacts.py_max_ge _ _ Hy).
        unfold ExtraSpec.in_box; simpl. split.
        * apply (Unit x minx maxx w); [lra|apply Rmax_r|exact Hw0].
        * apply (Unit y miny maxy h); [lra|apply Rmax_r|exact Hh0].
      + rewrite Forall_forall in Hd. apply Hd, H'. }
    destruct (IH (Score.dict_set k v d)) as [E F]; [intros k' p' H; apply Hl; simpl; auto|exact Hd'|].
    split; [|exact F]. rewrite E, DictFacts.keys_dict_set. reflexivity. }
  apply G; [auto|constructor].
Qed.

Lemma adaptive_params_monotone_witness :
  10 <= 200 /\
  let '(_, s1, d1, i1) := LayoutMain.adaptive_params 10 in
  let '(_, s2, d2, i2) := LayoutMain.adaptive_params 200 in
  (s1 <= s2)%R /\ (d1 <= d2)%R /\ i1 <= i2.
Proof.
  assert (H : 10 <= 200) by lia.
  split; [exact H|]. exact (adaptive_params_monotone 10 200 H).
Defined.

Module OverlapFacts.
Section S.
Context {T : Type} `{Layout.FloatOps T}.

Lemma step_pair_far m pos i j xi yi :
  Layout.get pos i = (xi, yi) ->
  Layout.f_ltb (ExtraSpec.pair_dist (Layout.get pos i) (Layout.get pos j)) m = false ->
  Layout.step_pair m xi yi pos j i = pos.
Proof.
  unfold Layout.step_pair, ExtraSpec.pair_dist. intro Ei. rewrite Ei.
  destruct (Layout.get pos j) as [xj yj]. intro E. rewrite E. reflexivity.
Qed.

Lemma one_pass_far m pos :
  ExtraSpec.no_close_pair pos m = true -> Layout.one_pass m (length pos) pos = pos.
Proof.
  unfold ExtraSpec.no_close_pair, Layout.one_pass. intro Hc.
  rewrite forallb_forall in Hc.
  induction (seq 0 (length pos)) as [|i is IH]; simpl; [reflexivity|].
  destruct (Layout.get pos i) as [xi yi] eqn:Ei.
  assert (Inner : forall js, (forall j, In j js ->
              Layout.f_ltb (ExtraSpec.pair_dist (Layout.get pos i) (Layout.get pos j)) m = false) ->
            fold_left (fun pos0 j => Layout.step_pair m xi yi pos0 j i) js pos = pos).
  { induction js as [|j js IHj]; intro Hj; simpl; [reflexivity|].
    rewrite (step_pair_far m pos i j xi yi Ei) by (apply Hj; simpl; auto).
    apply IHj. intros j' H'. apply Hj. simpl; auto. }
  rewrite Inner.
  - apply IH. intros i' Hi'. apply Hc. simpl; auto.
  - intros j Hj. assert (Hi : In i (i :: is)) by (simpl; auto).
    specialize (Hc i Hi). rewrite forallb_forall in Hc.
    apply negb_true_iff, Hc, Hj.
Qed.

End S.
End OverlapFacts.

(** Extra X15.  [de_overlap] leaves the positions unchanged, for any number of
    passes, when no pair of nodes is closer than [min_dist]. *)
Theorem de_overlap_keeps_spread_layout {T : Type} `{Layout.FloatOps T}
  (pos : list (@Layout.point T)) (min_dist : T) (passes : nat) :
  ExtraSpec.no_close_pair pos min_dist = true -> Layout.de_overlap pos min_dist passes = pos.
Proof.
  intro Hc. unfold Layout.de_overlap. induction passes as [|p IH]; simpl; [reflexivity|].
  rewrite IH. apply OverlapFacts.one_pass_far, Hc.
Qed.

Lemma de_overlap_keeps_spread_layout_witness :
  ExtraSpec.no_close_pair Fixtures.trio_pos 0.5%float = true
  /\ Layout.de_overlap Fixtures.trio_pos 0.5%float 3%nat = Fixtures.trio_pos.
Proof.
  assert (Hc : ExtraSpec.no_close_pair Fixtures.trio_pos 0.5%float = true) by (vm_compute; reflexivity).
  split; [exact Hc|]. exact (de_overlap_keeps_spread_layout Fixtures.trio_pos 0.5%float 3%nat Hc).
Defined.
